(** * Query decomposition, fan-out answering and recombination

    A shallow embedding of the "Query Decomposition" / "RAG" cells of
    [15-FastAPI-API.ipynb]: the [query_analyzer] chain with its empty-result
    fallback, the [rag_results] retry loop, and [format_qa_pairs].

    Python [str] values are modelled as [string]; a character stands for the
    code point of the same number (0..255).  The two external capabilities
    (the LLM chain and the RAG agent) are black boxes acting on an abstract
    world; they either return text or raise an [Exception]. *)

From Stdlib Require Import String Ascii List Arith Lia Bool DecimalString ZArith.
Import ListNotations.
Local Open Scope string_scope.

(** ** Python string primitives *)

Module PyStr.

(** The character written ["\n"] in the source. *)
Definition LF : ascii := "010"%char.

(** The one-character string ["\n"]. *)
Definition nl : string := String LF "".

(** [str(n)] / [f"{n}"] for a non-negative [int]. *)
Definition str (n : nat) : string := NilZero.string_of_uint (Nat.to_uint n).

(** [x.split(sep)] for a one-character separator: cuts at every occurrence of
    [sep]; the result always has one more entry than there are separators. *)
Fixpoint str_split (sep : ascii) (x : string) : list string :=
  match x with
  | EmptyString => [""]
  | String c r =>
      if Ascii.eqb c sep then "" :: str_split sep r
      else match str_split sep r with
           | h :: t => String c h :: t
           | [] => [String c ""]
           end
  end.

(** [sep.join(l)]. *)
Fixpoint str_join (sep : string) (l : list string) : string :=
  match l with
  | [] => ""
  | x :: r =>
      match r with
      | [] => x
      | _ :: _ => x ++ sep ++ str_join sep r
      end
  end.

(** [c.isspace()] on code points below 256: TAB..CR, FS..US, SPACE, NEL and
    NBSP. *)
Definition isspace (c : ascii) : bool :=
  let n := nat_of_ascii c in
  (((9 <=? n) && (n <=? 13)) || ((28 <=? n) && (n <=? 32))
   || (n =? 133) || (n =? 160))%nat.

(** [s.lstrip()] *)
Fixpoint lstrip (s : string) : string :=
  match s with
  | EmptyString => ""
  | String c r => if isspace c then lstrip r else s
  end.

(** [s.rstrip()] *)
Fixpoint rstrip (s : string) : string :=
  match s with
  | EmptyString => ""
  | String c r =>
      match rstrip r with
      | EmptyString => if isspace c then "" else String c ""
      | String d r' => String c (String d r')
      end
  end.

(** [s.strip()]: leading and trailing whitespace removed. *)
Definition strip (s : string) : string := rstrip (lstrip s).

(** All characters of [s] are whitespace. *)
Fixpoint all_space (s : string) : bool :=
  match s with
  | EmptyString => true
  | String c r => isspace c && all_space r
  end.

(** The last character of [s], if any. *)
Fixpoint last_char (s : string) : option ascii :=
  match s with
  | EmptyString => None
  | String c r => match last_char r with None => Some c | Some d => Some d end
  end.

(** [s] does not end with a whitespace character. *)
Definition no_trailing_space (s : string) : Prop :=
  forall c, last_char s = Some c -> isspace c = false.

(** [sep] occurs in [s]. *)
Fixpoint contains (sep : ascii) (s : string) : bool :=
  match s with
  | EmptyString => false
  | String c r => Ascii.eqb c sep || contains sep r
  end.

(** [enumerate(l, start)] *)
Fixpoint enumerate {A : Type} (start : nat) (l : list A) : list (nat * A) :=
  match l with
  | [] => []
  | x :: r => (start, x) :: enumerate (S start) r
  end.

End PyStr.

Import PyStr.

(** ** Recombination: the formatted context *)

(** One pass of the loop body of [format_qa_pairs]:
    [formatted_string += f"Question {i}: {question}\nAnswer {i}: {answer}\n\n"] *)
Definition append_qa (formatted_string : string)
    (p : nat * (string * string)) : string :=
  let '(i, (question, answer)) := p in
  formatted_string
  ++ ("Question " ++ str i ++ ": " ++ question ++ nl
      ++ "Answer " ++ str i ++ ": " ++ answer ++ nl ++ nl).

(** [def format_qa_pairs(questions, answers)]; [zip] is [combine]: it stops
    at the end of the shorter sequence. *)
Definition format_qa_pairs (questions answers : list string) : string :=
  let formatted_string :=
    fold_left append_qa (enumerate 1 (combine questions answers)) "" in
  strip formatted_string.

(** ** Exceptions and the notebook's effects *)

(** The exceptions of the model, all instances of Python's [Exception]
    (the class the retry loop's handler catches). *)
Inductive exn : Type :=
| Exception (msg : string)     (* raised by an external capability *)
| NameError (name : string).   (* read of an unbound variable *)

(** [str(e)] *)
Definition str_exn (e : exn) : string :=
  match e with
  | Exception msg => msg
  | NameError name => "name '" ++ name ++ "' is not defined"
  end.

(** Outcome of running a piece of code. *)
Inductive res (A : Type) : Type :=
| Normal (a : A)
| Raise (e : exn).
Arguments Normal {A} a.
Arguments Raise {A} e.

(** How a [for] body ends: falls through or [continue]s ([Next]), or
    [break]s. *)
Inductive signal : Type := Next | Break.

Section Notebook.

(** State of everything outside the notebook (the services behind the two
    capabilities). *)
Variable World : Type.

(** An external capability: given its text input, returns text or raises,
    and may change the world either way. *)
Definition capability : Type := string -> World -> res string * World.

(** [prompt | llm_with_tools | StrOutputParser()] *)
Variable llm : capability.

(** [rag_agent = create_docsearch_agent()] *)
Variable rag_agent : capability.

(** Kernel state the cells act on.  [sub_response] is the global variable of
    that name, [None] while it is unbound. *)
Record state : Type := mk_state {
  world : World;
  stdout : list string;
  sub_response : option string
}.

Definition M (A : Type) : Type := state -> res A * state.

Definition ret {A : Type} (a : A) : M A := fun s => (Normal a, s).

(** Sequencing: an exception skips the continuation and keeps the state
    reached when it was raised. *)
Definition bind {A B : Type} (m : M A) (k : A -> M B) : M B :=
  fun s =>
    match m s with
    | (Normal a, s') => k a s'
    | (Raise e, s') => (Raise e, s')
    end.

Definition raise {A : Type} (e : exn) : M A := fun s => (Raise e, s).

(** [try: body  except Exception as e: handler(e)] *)
Definition try_except {A : Type} (body : M A) (handler : exn -> M A) : M A :=
  fun s =>
    match body s with
    | (Normal a, s') => (Normal a, s')
    | (Raise e, s') => handler e s'
    end.

(** [print(line)] *)
Definition print (line : string) : M unit :=
  fun s => (Normal tt,
            mk_state (world s) (stdout s ++ [line]) (sub_response s)).

(** A call of an external capability. *)
Definition call (f : capability) (x : string) : M string :=
  fun s =>
    let (r, w) := f x (world s) in
    (r, mk_state w (stdout s) (sub_response s)).

(** [sub_response = v] *)
Definition set_sub_response (v : string) : M unit :=
  fun s => (Normal tt, mk_state (world s) (stdout s) (Some v)).

(** Read of the variable [sub_response]. *)
Definition get_sub_response : M string :=
  fun s =>
    match sub_response s with
    | Some v => (Normal v, s)
    | None => (Raise (NameError "sub_response"), s)
    end.

(** [for x in l: body(x)] with [break] and [continue]. *)
Fixpoint for_in {A : Type} (l : list A) (body : A -> M signal) : M unit :=
  match l with
  | [] => ret tt
  | x :: r =>
      bind (body x) (fun sg =>
        match sg with
        | Break => ret tt
        | Next => for_in r body
        end)
  end.

Notation "x <- m ;; k" := (bind m (fun x => k))
  (at level 61, m at next level, right associativity).
Notation "m ;; k" := (bind m (fun _ => k))
  (at level 61, right associativity).

(** ** Decomposer *)

(** [query_analyzer = prompt | llm_with_tools | StrOutputParser()
                      | (lambda x: x.split("\n"))] *)
Definition query_analyzer (question : string) : M (list string) :=
  x <- call llm question ;;
  ret (str_split LF x).

(** The cell [if sub_questions == [""]: ... else: ...]; returns the value
    of [sub_questions] after the cell. *)
Definition sub_questions_cell (original_question : string)
    (sub_questions : list string) : M (list string) :=
  if list_eq_dec string_dec sub_questions [""] then
    print "No sub-questions were generated." ;;
    ret [original_question]
  else
    print ("Original question was decomposed into "
           ++ str (length sub_questions) ++ " sub-questions.") ;;
    ret sub_questions.

(** [sub_questions = query_analyzer.invoke({"question": original_question})]
    followed by the fallback cell.  The display cell [print(sub_questions)]
    between the two binds nothing and is left out.  A failure of the chain
    is not caught: it propagates. *)
Definition decompose (original_question : string) : M (list string) :=
  sub_questions <- query_analyzer original_question ;;
  sub_questions_cell original_question sub_questions.

(** ** Fan-out answerer *)

(** Body of [for k in range(2)]: one attempt at [sub_question]. *)
Definition attempt (sub_question : string) (k : nat) : M signal :=
  print ("Attempt " ++ str (k + 1)) ;;
  try_except
    (r <- call rag_agent sub_question ;;
     set_sub_response r ;;
     ret Break)
    (fun e =>
       print ("Error: " ++ str_exn e) ;;
       set_sub_response "No response found." ;;
       ret Next).

(** Body of [for i, sub_question in enumerate(sub_questions, start=1)]. *)
Definition answer_sub_question (p : nat * string) : M signal :=
  let (i, sub_question) := p in
  print ("Sub-question " ++ str i ++ ": " ++ sub_question) ;;
  for_in (seq 0 2) (attempt sub_question) ;;
  ret Next.

(** The outer loop, with the numbering starting at [start]. *)
Definition fan_out (start : nat) (sub_questions : list string) : M unit :=
  for_in (enumerate start sub_questions) answer_sub_question.

(** The whole cell: [rag_results = []], the two nested loops, and then, after
    the loops, the single [rag_results.append(sub_response)].  Returns the
    value of [rag_results] after the cell. *)
Definition rag_results_cell (sub_questions : list string) : M (list string) :=
  let rag_results := [] in
  fan_out 1 sub_questions ;;
  v <- get_sub_response ;;
  ret (rag_results ++ [v])%list.

(** [context = format_qa_pairs(sub_questions, rag_results)] *)
Definition context_cell (sub_questions rag_results : list string) : M string :=
  ret (format_qa_pairs sub_questions rag_results).

(** The RAG cell followed by the context cell. *)
Definition answer_and_format (sub_questions : list string) : M string :=
  rag_results <- rag_results_cell sub_questions ;;
  context_cell sub_questions rag_results.

End Notebook.

Arguments mk_state {World} _ _ _.
Arguments world {World} _.
Arguments stdout {World} _.
Arguments sub_response {World} _.
Arguments for_in {World A} _ _ _.
Arguments query_analyzer {World} _ _ _.
Arguments sub_questions_cell {World} _ _ _.
Arguments decompose {World} _ _ _.
Arguments attempt {World} _ _ _ _.
Arguments answer_sub_question {World} _ _ _.
Arguments fan_out {World} _ _ _ _.
Arguments rag_results_cell {World} _ _ _.
Arguments context_cell {World} _ _ _.
Arguments answer_and_format {World} _ _ _.

(** ** Spec-side text of the formatted context *)

(** A labeled question line followed by a labeled answer line, both carrying
    the number [i]. *)
Definition qa_pair_text (i : nat) (question answer : string) : string :=
  "Question " ++ str i ++ ": " ++ question ++ nl
  ++ "Answer " ++ str i ++ ": " ++ answer.

(** The pairs taken by position, numbered from 1 in input order. *)
Definition numbered_pairs (questions answers : list string) : list string :=
  map (fun i => qa_pair_text (S i) (nth i questions "") (nth i answers ""))
      (seq 0 (length questions)).

(** The pairs separated by one blank line. *)
Definition spec_context (questions answers : list string) : string :=
  str_join (nl ++ nl) (numbered_pairs questions answers).

(** The texts of the pairs of [l], numbered from [k]. *)
Fixpoint pair_texts (k : nat) (l : list (string * string)) : list string :=
  match l with
  | [] => []
  | (q, a) :: r => qa_pair_text k q a :: pair_texts (S k) r
  end.

(** * Concrete capabilities used in the scenarios *)

(** The world of the scenarios counts the calls made so far. *)
Definition fresh_kernel : state nat := mk_state 0 [] None.

(** Always answers. *)
Definition echo_agent : capability nat :=
  fun q n => (Normal ("answer to " ++ q), S n).

(** Fails on the very first call, answers afterwards. *)
Definition flaky_agent : capability nat :=
  fun q n =>
    (match n with
     | 0 => Raise (Exception "timeout")
     | S _ => Normal ("answer to " ++ q)
     end, S n).

(** Never answers. *)
Definition failing_agent : capability nat :=
  fun _ n => (Raise (Exception "service unavailable"), S n).

(** Answers everything but questions about Bank B. *)
Definition picky_agent : capability nat :=
  fun q n =>
    (if String.eqb q "Q1 about Bank B"
     then Raise (Exception "service unavailable")
     else Normal ("answer to " ++ q), S n).

(** An LLM chain whose output is always [raw]. *)
Definition const_llm (raw : string) : capability nat :=
  fun _ n => (Normal raw, S n).

(** * The rest of the decomposition notebook *)

(** Number of occurrences of [c] in [s]. *)
Fixpoint count_char (c : ascii) (s : string) : nat :=
  match s with
  | EmptyString => 0
  | String d r => (if Ascii.eqb d c then 1 else 0) + count_char c r
  end.

(** The text [ChatPromptTemplate.from_template(template)] produces for
    [{"context": context, "question": question}]. *)
Definition final_prompt (context question : string) : string :=
  nl ++ "Here is a set of Q+A pairs:" ++ nl ++ nl
  ++ context ++ nl ++ nl
  ++ "Use this information to answer the original question: "
  ++ question ++ nl.

Section Workflow.

Variable World : Type.

(** [prompt | llm_with_tools | StrOutputParser()] of the decomposer. *)
Variable llm : capability World.

(** [rag_agent] *)
Variable rag_agent : capability World.

(** [llm | StrOutputParser()] of [final_rag_chain], fed with the formatted
    prompt. *)
Variable final_llm : capability World.

(** [final_response = final_rag_chain.invoke(
       {"context": context, "question": original_question})] *)
Definition final_rag_chain (context original_question : string)
  : M World string :=
  call World final_llm (final_prompt context original_question).

(** The cells of the notebook run in order, from [original_question] to
    [final_response]. *)
Definition workflow (original_question : string) : M World string :=
  bind World (decompose llm original_question) (fun sub_questions =>
  bind World (rag_results_cell rag_agent sub_questions) (fun rag_results =>
  bind World (context_cell sub_questions rag_results) (fun context =>
  final_rag_chain context original_question))).

End Workflow.

Arguments final_rag_chain {World} _ _ _ _.
Arguments workflow {World} _ _ _ _ _.

(** * The retry loop and the exceptions its handler does not catch *)

Module Interrupt.

(** What a call of the agent can raise: an instance of [Exception], which
    [except Exception] catches, or an exception outside that class
    ([KeyboardInterrupt], [SystemExit], [GeneratorExit]), named by its
    class, which the handler lets through. *)
Inductive raised : Type :=
| OfException (e : exn)
| NotOfException (class_name : string).

Inductive outcome (A : Type) : Type :=
| Returns (a : A)
| Raises (r : raised).
Arguments Returns {A} a.
Arguments Raises {A} r.

Section Loop.

Variable World : Type.

(** An external capability that returns text or raises anything. *)
Definition capability : Type := string -> World -> outcome string * World.

(** [rag_agent = create_docsearch_agent()] *)
Variable rag_agent : capability.

Definition M (A : Type) : Type := state World -> outcome A * state World.

Definition ret {A : Type} (a : A) : M A := fun s => (Returns a, s).

Definition bind {A B : Type} (m : M A) (k : A -> M B) : M B :=
  fun s =>
    match m s with
    | (Returns a, s') => k a s'
    | (Raises r, s') => (Raises r, s')
    end.

(** [try: body  except Exception as e: handler(e)]: what is not an instance
    of [Exception] goes through. *)
Definition try_except {A : Type} (body : M A) (handler : exn -> M A) : M A :=
  fun s =>
    match body s with
    | (Returns a, s') => (Returns a, s')
    | (Raises (OfException e), s') => handler e s'
    | (Raises (NotOfException c), s') => (Raises (NotOfException c), s')
    end.

(** [print(line)] *)
Definition print (line : string) : M unit :=
  fun s => (Returns tt,
            mk_state (world s) (stdout s ++ [line]) (sub_response s)).

(** A call of an external capability. *)
Definition call (f : capability) (x : string) : M string :=
  fun s =>
    let (r, w) := f x (world s) in
    (r, mk_state w (stdout s) (sub_response s)).

(** [sub_response = v] *)
Definition set_sub_response (v : string) : M unit :=
  fun s => (Returns tt, mk_state (world s) (stdout s) (Some v)).

(** Read of the variable [sub_response]; [NameError] is an instance of
    [Exception]. *)
Definition get_sub_response : M string :=
  fun s =>
    match sub_response s with
    | Some v => (Returns v, s)
    | None => (Raises (OfException (NameError "sub_response")), s)
    end.

(** [for x in l: body(x)] with [break] and [continue]. *)
Fixpoint for_in {A : Type} (l : list A) (body : A -> M signal) : M unit :=
  match l with
  | [] => ret tt
  | x :: r =>
      bind (body x) (fun sg =>
        match sg with
        | Break => ret tt
        | Next => for_in r body
        end)
  end.

Notation "x <- m ;; k" := (bind m (fun x => k))
  (at level 61, m at next level, right associativity).
Notation "m ;; k" := (bind m (fun _ => k))
  (at level 61, right associativity).

(** Body of [for k in range(2)]. *)
Definition attempt (sub_question : string) (k : nat) : M signal :=
  print ("Attempt " ++ str (k + 1)) ;;
  try_except
    (r <- call rag_agent sub_question ;;
     set_sub_response r ;;
     ret Break)
    (fun e =>
       print ("Error: " ++ str_exn e) ;;
       set_sub_response "No response found." ;;
       ret Next).

(** Body of [for i, sub_question in enumerate(sub_questions, start=1)]. *)
Definition answer_sub_question (p : nat * string) : M signal :=
  let (i, sub_question) := p in
  print ("Sub-question " ++ str i ++ ": " ++ sub_question) ;;
  for_in (seq 0 2) (attempt sub_question) ;;
  ret Next.

(** The outer loop, with the numbering starting at [start]. *)
Definition fan_out (start : nat) (sub_questions : list string) : M unit :=
  for_in (enumerate start sub_questions) answer_sub_question.

(** The whole cell, ending with [rag_results.append(sub_response)]. *)
Definition rag_results_cell (sub_questions : list string) : M (list string) :=
  let rag_results := [] in
  fan_out 1 sub_questions ;;
  v <- get_sub_response ;;
  ret (rag_results ++ [v])%list.

End Loop.

Arguments ret {World A} _ _.
Arguments bind {World A B} _ _ _.
Arguments for_in {World A} _ _ _.
Arguments attempt {World} _ _ _ _.
Arguments answer_sub_question {World} _ _ _.
Arguments fan_out {World} _ _ _ _.
Arguments rag_results_cell {World} _ _ _.

(** A capability together with a counter of the calls made to it. *)
Definition counting {World : Type} (f : capability World)
  : capability (World * nat) :=
  fun x wn =>
    let (r, w) := f x (fst wn) in
    (r, (w, S (snd wn))).

(** The agent never raises anything outside [Exception]. *)
Definition only_exceptions {World : Type} (f : capability World) : Prop :=
  forall x w c w', f x w <> (Raises (NotOfException c), w').

(** Interrupted at the first call, answers afterwards. *)
Definition interrupted_agent : capability nat :=
  fun q n =>
    (match n with
     | 0 => Raises (NotOfException "KeyboardInterrupt")
     | S _ => Returns ("answer to " ++ q)
     end, S n).

End Interrupt.

(** An outcome of the first model, read in the second one. *)
Definition as_outcome {A : Type} (r : res A) : Interrupt.outcome A :=
  match r with
  | Normal a => Interrupt.Returns a
  | Raise e => Interrupt.Raises (Interrupt.OfException e)
  end.

(** A capability whose failures are all instances of [Exception], read as
    a capability of the second model. *)
Definition of_exceptions {World : Type} (f : capability World)
  : Interrupt.capability World :=
  fun x w => let (r, w') := f x w in (as_outcome r, w').

(** * The HTTP client cells *)

Module Client.

(** [BASE_URL], as left by the second assignment of the cell. *)
Definition BASE_URL : string := "http://localhost:8000".

(** A value as [response.json()] / [json.loads] build it.  A [float] is
    carried by the text Python prints for it; the members of a [dict] have
    distinct keys and are kept in insertion order. *)
#[warnings="-register-all"]
Inductive json : Type :=
| JNull
| JBool (b : bool)
| JInt (n : Z)
| JFloat (text : string)
| JStr (s : string)
| JArr (items : list json)
| JObj (members : list (string * json)).

(** The exception classes the handlers tell apart: [requests.HTTPError], and
    the other instances of [Exception]. *)
Inductive exc_class : Type :=
| HTTPError
| AttributeError
| IndexError
| TypeError
| OtherException.

(** An exception: its class and [str(e)]. *)
Record exc : Type := mk_exc { exc_class_of : exc_class; exc_msg : string }.

Inductive outcome (A : Type) : Type :=
| Ok (a : A)
| Err (e : exc).
Arguments Ok {A} a.
Arguments Err {A} e.

(** What the client uses of a [requests.Response]:
    [raise_for_status()] raises [HTTPError(msg)] when [status_error] is
    [Some msg]; [json()] returns [json_body] or raises; [sse_events] are the
    [(event, data)] pairs [SSEClient(resp).events()] yields, after which the
    iteration raises [sse_error] if there is one. *)
Record response : Type := mk_response {
  status_error : option string;
  json_body : outcome json;
  sse_events : list (string * string);
  sse_error : option exc
}.

(** [type(v).__name__] *)
Definition type_name (v : json) : string :=
  match v with
  | JNull => "NoneType"
  | JBool _ => "bool"
  | JInt _ => "int"
  | JFloat _ => "float"
  | JStr _ => "str"
  | JArr _ => "list"
  | JObj _ => "dict"
  end.

(** [d[key]] as an option. *)
Fixpoint lookup (key : string) (members : list (string * json))
  : option json :=
  match members with
  | [] => None
  | (k, v) :: r => if String.eqb k key then Some v else lookup key r
  end.

Section Calls.

Variable World : Type.

(** [str(uuid.uuid4())] *)
Variable uuid4 : World -> string * World.

(** [requests.post(url, json=payload, stream=stream)] *)
Variable requests_post :
  string -> json -> bool -> World -> outcome response * World.

(** [json.loads] *)
Variable json_loads : string -> outcome json.

(** [repr] of a [list] or a [dict]. *)
Variable py_repr : json -> string.

(** The world and the characters written to standard output. *)
Record state : Type := mk_state { world : World; stdout : string }.

Definition M (A : Type) : Type := state -> outcome A * state.

Definition ret {A : Type} (a : A) : M A := fun s => (Ok a, s).

Definition bind {A B : Type} (m : M A) (k : A -> M B) : M B :=
  fun s =>
    match m s with
    | (Ok a, s') => k a s'
    | (Err e, s') => (Err e, s')
    end.

Definition raise {A : Type} (e : exc) : M A := fun s => (Err e, s).

Notation "x <- m ;; k" := (bind m (fun x => k))
  (at level 61, m at next level, right associativity).
Notation "m ;; k" := (bind m (fun _ => k))
  (at level 61, right associativity).

(** [try: body
     except requests.HTTPError as err: on_http(err)
     except Exception as e: on_exception(e)] *)
Definition try_except {A : Type} (body : M A)
    (on_http on_exception : exc -> M A) : M A :=
  fun s =>
    match body s with
    | (Ok a, s') => (Ok a, s')
    | (Err e, s') =>
        match exc_class_of e with
        | HTTPError => on_http e s'
        | _ => on_exception e s'
        end
    end.

(** [print(text)] *)
Definition print (text : string) : M unit :=
  fun s => (Ok tt, mk_state (world s) (stdout s ++ text ++ nl)).

(** [for x in l: body(x)] *)
Fixpoint for_each {A : Type} (l : list A) (body : A -> M unit) : M unit :=
  match l with
  | [] => ret tt
  | x :: r => body x ;; for_each r body
  end.

(** [str(v)], as an f-string formats [v]. *)
Definition py_str (v : json) : string :=
  match v with
  | JNull => "None"
  | JBool true => "True"
  | JBool false => "False"
  | JInt n => NilZero.string_of_int (Z.to_int n)
  | JFloat text => text
  | JStr s => s
  | JArr _ | JObj _ => py_repr v
  end.

(** [thread_id or str(uuid.uuid4())] *)
Definition thread_id_or_uuid (thread_id : string) : M string :=
  match thread_id with
  | EmptyString =>
      fun s => let (u, w) := uuid4 (world s) in (Ok u, mk_state w (stdout s))
  | String _ _ => ret thread_id
  end.

Definition post (url : string) (payload : json) (stream : bool)
  : M response :=
  fun s =>
    let (r, w) := requests_post url payload stream (world s) in
    (r, mk_state w (stdout s)).

(** [resp.raise_for_status()] *)
Definition raise_for_status (resp : response) : M unit :=
  match status_error resp with
  | Some msg => raise (mk_exc HTTPError msg)
  | None => ret tt
  end.

(** [resp.json()] *)
Definition response_json (resp : response) : M json :=
  fun s => (json_body resp, s).

(** [data.get(key, default)]: only a [dict] has the method. *)
Definition get (data : json) (key : string) (default : json) : M json :=
  match data with
  | JObj members =>
      ret (match lookup key members with Some v => v | None => default end)
  | _ =>
      raise (mk_exc AttributeError
               ("'" ++ type_name data ++ "' object has no attribute 'get'"))
  end.

(** The items [enumerate(v)] iterates over: the elements of a [list], the
    characters of a [str], the keys of a [dict]. *)
Definition iter (v : json) : M (list json) :=
  match v with
  | JArr items => ret items
  | JStr s => ret (map (fun c => JStr (String c "")) (list_ascii_of_string s))
  | JObj members => ret (map (fun kv => JStr (fst kv)) members)
  | _ =>
      raise (mk_exc TypeError
               ("'" ++ type_name v ++ "' object is not iterable"))
  end.

(** [questions[i]] for [i >= 0] *)
Definition index (questions : list string) (i : nat) : M string :=
  match nth_error questions i with
  | Some q => ret q
  | None => raise (mk_exc IndexError "list index out of range")
  end.

(** [def call_invoke(question: str, thread_id: str = "")] *)
Definition call_invoke (question thread_id : string) : M unit :=
  let url := BASE_URL ++ "/invoke" in
  tid <- thread_id_or_uuid thread_id ;;
  let payload := JObj [("user_input", JStr question);
                       ("thread_id", JStr tid)] in
  print (nl ++ "--- Calling /invoke with question: " ++ question) ;;
  try_except
    (response <- post url payload false ;;
     raise_for_status response ;;
     data <- response_json response ;;
     final_answer <- get data "final_answer" JNull ;;
     print ("[/invoke response] final_answer: " ++ py_str final_answer))
    (fun err => print ("[/invoke] HTTP Error: " ++ exc_msg err))
    (fun e => print ("[/invoke] An error occurred: " ++ exc_msg e)).

(** Body of [for i, ans in enumerate(answers)] in [call_batch]. *)
Definition print_answer (questions : list string) (p : nat * json) : M unit :=
  let (i, ans) := p in
  q <- index questions i ;;
  print ("Q: " ++ q) ;;
  print ("A: " ++ py_str ans) ;;
  print "-----".

(** The three lines [print_answer] writes for the answer [ans] to [q]. *)
Definition answer_lines (q : string) (ans : json) : string :=
  "Q: " ++ q ++ nl ++ "A: " ++ py_str ans ++ nl ++ "-----" ++ nl.

(** The lines for the answers paired by position with the questions, up to
    the end of the shorter sequence. *)
Fixpoint report (questions : list string) (answers : list json) : string :=
  match questions, answers with
  | q :: qs, ans :: rest => answer_lines q ans ++ report qs rest
  | _, _ => ""
  end.

(** [def call_batch(questions: list[str], thread_id: str = "")] *)
Definition call_batch (questions : list string) (thread_id : string)
  : M unit :=
  let url := BASE_URL ++ "/batch" in
  tid <- thread_id_or_uuid thread_id ;;
  let payload := JObj [("questions", JArr (map JStr questions));
                       ("thread_id", JStr tid)] in
  print (nl ++ "--- Calling /batch with questions: "
         ++ py_repr (JArr (map JStr questions))) ;;
  try_except
    (resp <- post url payload false ;;
     raise_for_status resp ;;
     data <- response_json resp ;;
     answers <- get data "answers" (JArr []) ;;
     items <- iter answers ;;
     for_each (enumerate 0 items) (print_answer questions))
    (fun err => print ("[/batch] HTTP Error: " ++ exc_msg err))
    (fun e => print ("[/batch] An error occurred: " ++ exc_msg e)).

(** [def process_partial_text(text: str)]:
    [print(text, end="", flush=True)] *)
Definition process_partial_text (text : string) : M unit :=
  fun s => (Ok tt, mk_state (world s) (stdout s ++ text)).

(** Body of [for event in client.events()] in [call_stream]. *)
Definition handle_event (event : string * string) : M unit :=
  let (evt_type, evt_data) := event in
  if String.eqb evt_type "metadata" then
    info <- (fun s => (json_loads evt_data, s)) ;;
    run_id <- get info "run_id" (JStr "") ;;
    print (nl ++ "[Metadata] run_id=" ++ py_str run_id)
  else if String.eqb evt_type "data" then
    process_partial_text evt_data
  else if String.eqb evt_type "on_tool_start" then
    print (nl ++ "[Tool Start] " ++ evt_data)
  else if String.eqb evt_type "on_tool_end" then
    print (nl ++ "[Tool End] " ++ evt_data)
  else if String.eqb evt_type "end" then
    print (nl ++ "[Done Streaming] Final text: " ++ evt_data)
  else if String.eqb evt_type "error" then
    print (nl ++ "[SSE Error] " ++ evt_data)
  else
    print (nl ++ "[Unrecognized event=" ++ evt_type ++ "] " ++ evt_data).

(** [def call_stream(question: str, thread_id: str = "")] *)
Definition call_stream (question thread_id : string) : M unit :=
  let url := BASE_URL ++ "/stream" in
  let payload := JObj [("user_input", JStr question);
                       ("thread_id", JStr thread_id)] in
  resp <- post url payload true ;;
  raise_for_status resp ;;
  for_each (sse_events resp) handle_event ;;
  match sse_error resp with
  | Some e => raise e
  | None => ret tt
  end.

End Calls.

Arguments mk_state {World} _ _.
Arguments world {World} _.
Arguments stdout {World} _.
Arguments ret {World A} _ _.
Arguments bind {World A B} _ _ _.
Arguments raise {World A} _ _.
Arguments try_except {World A} _ _ _ _.
Arguments print {World} _ _.
Arguments post {World} _ _ _ _ _.
Arguments raise_for_status {World} _ _.
Arguments response_json {World} _ _.
Arguments get {World} _ _ _ _.
Arguments iter {World} _ _.
Arguments index {World} _ _ _.
Arguments for_each {World A} _ _ _.
Arguments process_partial_text {World} _ _.
Arguments thread_id_or_uuid {World} _ _ _.
Arguments call_invoke {World} _ _ _ _ _ _.
Arguments print_answer {World} _ _ _ _.
Arguments answer_lines _ _ _ : clear implicits.
Arguments report _ _ _ : clear implicits.
Arguments call_batch {World} _ _ _ _ _ _.
Arguments handle_event {World} _ _ _ _.
Arguments call_stream {World} _ _ _ _ _ _.

(** ** Concrete services used in the scenarios *)

(** The world counts the calls made to the services. *)
Definition demo_uuid4 : nat -> string * nat :=
  fun n => ("5e426240-c770-4997-889d-519ab6153b80", S n).

(** A backend that answers every request with [resp]. *)
Definition backend (resp : response)
  : string -> json -> bool -> nat -> outcome response * nat :=
  fun _ _ _ n => (Ok resp, S n).

(** A parser that knows two texts. *)
Definition demo_loads (text : string) : outcome json :=
  if String.eqb text "{}" then Ok (JObj [])
  else if String.eqb text "[]" then Ok (JArr [])
  else Err (mk_exc OtherException "Expecting value: line 1 column 1 (char 0)").

Definition demo_repr (v : json) : string := "[...]".

End Client.

(** * Facts about the string primitives *)

Section StringFacts.

Lemma str_split_cons (sep : ascii) (x : string) :
  exists h t, str_split sep x = h :: t.
Proof.
  destruct x as [|c r]; simpl.
  - now exists "", [].
  - destruct (Ascii.eqb c sep).
    + now exists "", (str_split sep r).
    + destruct (str_split sep r) as [|h t]; eauto.
Qed.

Lemma str_split_length (sep : ascii) (x : string) :
  1 <= length (str_split sep x).
Proof.
  destruct (str_split_cons sep x) as (h & t & E). rewrite E. simpl. lia.
Qed.

Lemma str_join_cons_char (sep : string) (c : ascii) (h : string) t :
  str_join sep (String c h :: t) = String c (str_join sep (h :: t)).
Proof. destruct t; reflexivity. Qed.

Lemma str_join_cons2 (sep x h : string) t :
  str_join sep (x :: h :: t) = x ++ sep ++ str_join sep (h :: t).
Proof. reflexivity. Qed.

Lemma str_join_split (sep : ascii) (x : string) :
  str_join (String sep "") (str_split sep x) = x.
Proof.
  induction x as [|c r IH]; [reflexivity|].
  simpl str_split. destruct (Ascii.eqb_spec c sep) as [->|Hne].
  - destruct (str_split_cons sep r) as (h & t & E).
    rewrite E in *. rewrite str_join_cons2, IH. reflexivity.
  - destruct (str_split sep r) as [|h t] eqn:E.
    + destruct (str_split_cons sep r) as (h & t & E'). congruence.
    + rewrite str_join_cons_char, IH. reflexivity.
Qed.

Lemma str_split_no_sep (sep : ascii) (x : string) :
  Forall (fun line => contains sep line = false) (str_split sep x).
Proof.
  induction x as [|c r IH]; simpl.
  - repeat constructor.
  - destruct (Ascii.eqb c sep) eqn:Ec.
    + constructor; [reflexivity | exact IH].
    + destruct (str_split sep r) as [|h t].
      * constructor; [simpl; now rewrite Ec | constructor].
      * inversion IH; subst. constructor; [simpl; now rewrite Ec | assumption].
Qed.

Lemma str_split_single_empty (sep : ascii) (x : string) :
  str_split sep x = [""] <-> x = "".
Proof.
  split; [|intros ->; reflexivity].
  destruct x as [|c r]; [reflexivity|]. simpl.
  destruct (Ascii.eqb c sep).
  - destruct (str_split_cons sep r) as (h & t & E). rewrite E. discriminate.
  - destruct (str_split sep r); discriminate.
Qed.

Lemma rstrip_all_space (w : string) : all_space w = true -> rstrip w = "".
Proof.
  induction w as [|c r IH]; [reflexivity|]. simpl.
  intros H. apply andb_prop in H as [Hc Hr].
  now rewrite (IH Hr), Hc.
Qed.

Lemma rstrip_app_space (s w : string) :
  all_space w = true -> rstrip (s ++ w) = rstrip s.
Proof.
  intros Hw. induction s as [|c r IH]; simpl.
  - now apply rstrip_all_space.
  - now rewrite IH.
Qed.

Lemma last_char_cons (c d : ascii) (r : string) :
  last_char (String c (String d r)) = last_char (String d r).
Proof. simpl. now destruct (last_char r). Qed.

Lemma rstrip_no_trailing_space (s : string) : no_trailing_space (rstrip s).
Proof.
  unfold no_trailing_space.
  induction s as [|c r IH]; intros x; [discriminate|].
  simpl rstrip. destruct (rstrip r) as [|d r'].
  - destruct (isspace c) eqn:Ec; [discriminate|].
    simpl. now intros [= <-].
  - rewrite last_char_cons. apply IH.
Qed.

Lemma rstrip_suffix (s : string) :
  exists w, all_space w = true /\ s = rstrip s ++ w.
Proof.
  induction s as [|c r (w & Hw & E)].
  - now exists "".
  - simpl rstrip. destruct (rstrip r) as [|d r'].
    + simpl in E. destruct (isspace c) eqn:Ec.
      * exists (String c w). simpl. rewrite Ec, Hw, <- E. now split.
      * exists w. split; [assumption|]. simpl. now rewrite <- E.
    + exists w. split; [assumption|]. simpl. simpl in E. now rewrite <- E.
Qed.

End StringFacts.

(** * Facts about [format_qa_pairs] *)

Section FormatFacts.

Lemma str_app_assoc (a b c : string) : (a ++ b) ++ c = a ++ (b ++ c).
Proof. induction a as [|x a IH]; simpl; [reflexivity | now rewrite IH]. Qed.

Lemma str_app_empty_r (a : string) : a ++ "" = a.
Proof. induction a as [|x a IH]; simpl; [reflexivity | now rewrite IH]. Qed.

Lemma append_qa_text acc k q a :
  append_qa acc (k, (q, a)) = acc ++ qa_pair_text k q a ++ nl ++ nl.
Proof.
  unfold append_qa, qa_pair_text.
  repeat rewrite str_app_assoc. reflexivity.
Qed.

(** The loop of [format_qa_pairs] leaves the accumulator followed by the
    pairs, each one followed by a blank line. *)
Lemma format_loop_join l : forall k acc,
  l <> [] ->
  fold_left append_qa (enumerate k l) acc
  = acc ++ str_join (nl ++ nl) (pair_texts k l) ++ nl ++ nl.
Proof.
  induction l as [|[q a] r IH]; intros k acc Hne; [congruence|].
  cbn [enumerate fold_left pair_texts]. rewrite append_qa_text.
  destruct r as [|p r'].
  - reflexivity.
  - rewrite IH by discriminate.
    destruct p as [q' a']. cbn [pair_texts].
    rewrite str_join_cons2. repeat rewrite str_app_assoc. reflexivity.
Qed.

Lemma pair_texts_head_not_space k p r :
  lstrip (str_join (nl ++ nl) (pair_texts k (p :: r)) ++ nl ++ nl)
  = str_join (nl ++ nl) (pair_texts k (p :: r)) ++ nl ++ nl.
Proof.
  destruct p as [q a]. cbn [pair_texts].
  destruct (pair_texts (S k) r); reflexivity.
Qed.

Lemma pair_texts_numbered qs : forall k ans,
  length qs = length ans ->
  pair_texts k (combine qs ans)
  = map (fun i => qa_pair_text (k + i) (nth i qs "") (nth i ans ""))
        (seq 0 (length qs)).
Proof.
  induction qs as [|q qs IH]; intros k [|a ans] Hlen; try discriminate.
  - reflexivity.
  - injection Hlen as Hlen. cbn [combine pair_texts length seq map nth].
    rewrite Nat.add_0_r. f_equal.
    rewrite (IH (S k) ans Hlen), <- seq_shift, map_map.
    apply map_ext. intros i. now rewrite Nat.add_succ_r.
Qed.

(** On sequences of equal length the source text is the spec text with its
    trailing whitespace removed. *)
Lemma format_qa_pairs_rstrip qs ans :
  length qs = length ans ->
  format_qa_pairs qs ans = rstrip (spec_context qs ans).
Proof.
  intros Hlen. unfold format_qa_pairs, spec_context, numbered_pairs.
  pose proof (pair_texts_numbered qs 1 ans Hlen) as P.
  cbn [Nat.add] in P. rewrite <- P. clear P.
  destruct (combine qs ans) as [|p r] eqn:E; [reflexivity|].
  rewrite format_loop_join by discriminate.
  cbn [append]. unfold strip. rewrite pair_texts_head_not_space.
  now apply rstrip_app_space.
Qed.

(** [zip] never looks past the shorter sequence. *)
Lemma format_qa_pairs_truncates qs ans :
  let n := Nat.min (length qs) (length ans) in
  format_qa_pairs qs ans = format_qa_pairs (firstn n qs) (firstn n ans).
Proof.
  intros n. unfold format_qa_pairs.
  rewrite <- combine_firstn. unfold n.
  rewrite <- (length_combine qs ans), firstn_all. reflexivity.
Qed.

End FormatFacts.

(** * Facts about the fan-out loop *)

Section FanOutFacts.

Variable World : Type.
Variable rag_agent : capability World.

(** A successful attempt binds [sub_response] to the result and breaks. *)
Lemma attempt_returns q k (s : state World) r w :
  rag_agent q (world s) = (Normal r, w) ->
  attempt rag_agent q k s
  = (Normal Break,
     mk_state w (stdout s ++ ["Attempt " ++ str (k + 1)]) (Some r)).
Proof.
  intros H. unfold attempt, bind, try_except, call, print, set_sub_response, ret.
  cbn [world stdout sub_response]. rewrite H. reflexivity.
Qed.

(** A failed attempt is caught: the error is printed, [sub_response] is bound
    to the literal of the handler, and the loop goes on. *)
Lemma attempt_raises q k (s : state World) e w :
  rag_agent q (world s) = (Raise e, w) ->
  attempt rag_agent q k s
  = (Normal Next,
     mk_state w
       (stdout s ++ ["Attempt " ++ str (k + 1); "Error: " ++ str_exn e])
       (Some "No response found.")).
Proof.
  intros H. unfold attempt, bind, try_except, call, print, set_sub_response, ret.
  cbn [world stdout sub_response]. rewrite H.
  cbn [world stdout sub_response]. rewrite <- app_assoc. reflexivity.
Qed.

Lemma attempt_total q k (s : state World) :
  exists sg s', attempt rag_agent q k s = (Normal sg, s')
                /\ sub_response s' <> None.
Proof.
  destruct (rag_agent q (world s)) as [[r|e] w] eqn:H.
  - rewrite (attempt_returns _ _ _ _ _ H). eexists _, _. split; [reflexivity|].
    discriminate.
  - rewrite (attempt_raises _ _ _ _ _ H). eexists _, _. split; [reflexivity|].
    discriminate.
Qed.

Lemma attempts_total q ks : forall s : state World,
  exists s', for_in ks (attempt rag_agent q) s = (Normal tt, s')
             /\ (ks <> [] \/ sub_response s <> None -> sub_response s' <> None).
Proof.
  induction ks as [|k ks IH]; intros s.
  - exists s. split; [reflexivity|]. intros [H|H]; [congruence | exact H].
  - destruct (attempt_total q k s) as (sg & s1 & E & Hb).
    cbn [for_in]. unfold bind at 1. rewrite E. destruct sg.
    + destruct (IH s1) as (s2 & E2 & Hb2).
      exists s2. split; [exact E2|]. intros _. apply Hb2. now right.
    + exists s1. split; [reflexivity|]. intros _. exact Hb.
Qed.

(** The body of the outer loop always completes normally and leaves
    [sub_response] bound. *)
Lemma answer_sub_question_total p (s : state World) :
  exists s', answer_sub_question rag_agent p s = (Normal Next, s')
             /\ sub_response s' <> None.
Proof.
  destruct p as [i q]. unfold answer_sub_question.
  unfold bind at 1. unfold print at 1.
  match goal with |- context [for_in ?ks ?b] =>
    destruct (attempts_total q ks
      (mk_state (world s) (stdout s ++ ["Sub-question " ++ str i ++ ": " ++ q])
                (sub_response s))) as (s' & E & Hb)
  end.
  exists s'. unfold bind. rewrite E. split; [reflexivity|].
  apply Hb. left. discriminate.
Qed.

Lemma fan_out_step k q qs (s s' : state World) :
  answer_sub_question rag_agent (k, q) s = (Normal Next, s') ->
  fan_out rag_agent k (q :: qs) s = fan_out rag_agent (S k) qs s'.
Proof.
  intros E. unfold fan_out. cbn [enumerate for_in]. unfold bind.
  rewrite E. reflexivity.
Qed.

(** No exception leaves the outer loop, and once a sub-question has been
    processed [sub_response] is bound. *)
Lemma fan_out_total qs : forall k (s : state World),
  exists s', fan_out rag_agent k qs s = (Normal tt, s')
             /\ (qs <> [] \/ sub_response s <> None -> sub_response s' <> None).
Proof.
  induction qs as [|q qs IH]; intros k s.
  - exists s. split; [reflexivity|]. intros [H|H]; [congruence | exact H].
  - destruct (answer_sub_question_total (k, q) s) as (s1 & E & Hb).
    rewrite (fan_out_step _ _ _ _ _ E).
    destruct (IH (S k) s1) as (s2 & E2 & Hb2).
    exists s2. split; [exact E2|]. intros _. apply Hb2. now right.
Qed.

(** The loop over [pre ++ post] is the loop over [pre] followed by the loop
    over [post], whose numbering goes on where the first one stopped. *)
Lemma fan_out_app pre : forall k post (s s' : state World),
  fan_out rag_agent k pre s = (Normal tt, s') ->
  fan_out rag_agent k (pre ++ post) s
  = fan_out rag_agent (k + length pre) post s'.
Proof.
  induction pre as [|q pre IH]; intros k post s s' E.
  - cbn in E. injection E as <-. cbn. now rewrite Nat.add_0_r.
  - destruct (answer_sub_question_total (k, q) s) as (s1 & E1 & _).
    rewrite (fan_out_step _ _ _ _ _ E1) in E.
    cbn [app length]. rewrite (fan_out_step _ _ _ _ _ E1).
    rewrite (IH (S k) post s1 s' E). f_equal. lia.
Qed.

(** The statement after the loops appends the current [sub_response], once. *)
Lemma rag_results_cell_after qs (s s' : state World) v :
  fan_out rag_agent 1 qs s = (Normal tt, s') ->
  sub_response s' = Some v ->
  rag_results_cell rag_agent qs s = (Normal [v], s').
Proof.
  intros E Hv. unfold rag_results_cell, bind, get_sub_response, ret.
  rewrite E, Hv. reflexivity.
Qed.

(** Both attempts fail: the handler's literal is what remains bound. *)
Lemma answer_sub_question_exhausted k q (s : state World) e1 w1 e2 w2 :
  rag_agent q (world s) = (Raise e1, w1) ->
  rag_agent q w1 = (Raise e2, w2) ->
  answer_sub_question rag_agent (k, q) s
  = (Normal Next,
     mk_state w2
       (stdout s ++ ["Sub-question " ++ str k ++ ": " ++ q;
                     "Attempt 1"; "Error: " ++ str_exn e1;
                     "Attempt 2"; "Error: " ++ str_exn e2])
       (Some "No response found.")).
Proof.
  intros H1 H2. unfold answer_sub_question.
  unfold bind at 1. unfold print at 1.
  cbn [seq for_in]. unfold bind at 1. unfold bind at 1.
  rewrite (attempt_raises q 0 _ e1 w1) by exact H1.
  unfold bind at 1.
  rewrite (attempt_raises q 1 _ e2 w2) by exact H2.
  cbn [ret world stdout sub_response]. unfold ret.
  repeat rewrite <- app_assoc. reflexivity.
Qed.

(** First attempt fails, second returns: the second result remains bound. *)
Lemma answer_sub_question_retried k q (s : state World) e1 w1 r2 w2 :
  rag_agent q (world s) = (Raise e1, w1) ->
  rag_agent q w1 = (Normal r2, w2) ->
  answer_sub_question rag_agent (k, q) s
  = (Normal Next,
     mk_state w2
       (stdout s ++ ["Sub-question " ++ str k ++ ": " ++ q;
                     "Attempt 1"; "Error: " ++ str_exn e1; "Attempt 2"])
       (Some r2)).
Proof.
  intros H1 H2. unfold answer_sub_question.
  unfold bind at 1. unfold print at 1.
  cbn [seq for_in]. unfold bind at 1. unfold bind at 1.
  rewrite (attempt_raises q 0 _ e1 w1) by exact H1.
  unfold bind at 1.
  rewrite (attempt_returns q 1 _ r2 w2) by exact H2.
  cbn [ret world stdout sub_response]. unfold ret.
  repeat rewrite <- app_assoc. reflexivity.
Qed.

End FanOutFacts.

(** * Decomposer *)

(** C4, as written, at a blank result: the LLM chain returns one space, a
    text made of whitespace only; its line-split is [[" "]], not [[""]], and
    [decompose] returns [[" "]], not the original question. *)
Lemma blank_result_is_not_replaced :
  all_space " " = true
  /\ str_split LF " " = [" "]
  /\ decompose (const_llm " ") "How many GRI requirements?" fresh_kernel
     = (Normal [" "],
        mk_state 1 ["Original question was decomposed into 1 sub-questions."]
                 None)
  /\ [" "] <> ["How many GRI requirements?"].
Proof.
  split; [reflexivity|]. split; [reflexivity|]. split; [reflexivity|].
  discriminate.
Qed.

(** C4 (amended). If the generation capability returns the empty text,
    which is exactly the case in which the line-split is the single entry
    [""], [decompose q] is exactly [[q]]. *)
Theorem decompose_empty_text_falls_back
    (World : Type) (llm : capability World) (q raw : string)
    (s : state World) (w : World) :
  llm q (world s) = (Normal raw, w) ->
  raw = "" \/ str_split LF raw = [""] ->
  raw = ""
  /\ str_split LF raw = [""]
  /\ decompose llm q s
     = (Normal [q],
        mk_state w (stdout s ++ ["No sub-questions were generated."])
                 (sub_response s)).
Proof.
  intros Hllm Hempty.
  assert (Hraw : raw = "").
  { destruct Hempty as [H|H]; [exact H|].
    now apply (str_split_single_empty LF raw). }
  subst raw. split; [reflexivity|]. split; [reflexivity|].
  unfold decompose, query_analyzer, bind, call, ret. rewrite Hllm.
  cbn [world stdout sub_response str_split].
  unfold sub_questions_cell.
  destruct (list_eq_dec string_dec [""] [""]) as [_|Hne]; [|congruence].
  reflexivity.
Qed.

Lemma decompose_empty_text_falls_back_witness :
  "" = ""
  /\ str_split LF "" = [""]
  /\ decompose (const_llm "") "How many GRI requirements?" fresh_kernel
     = (Normal ["How many GRI requirements?"],
        mk_state 1 ["No sub-questions were generated."] None).
Proof.
  apply (decompose_empty_text_falls_back nat (const_llm "")
           "How many GRI requirements?" "" fresh_kernel 1);
    [reflexivity | left; reflexivity].
Defined.

(** C8. Whatever text the generation capability returns, [decompose] returns
    a sequence of at least one sub-question (for every question, the
    non-empty ones included). *)
Theorem decompose_at_least_one
    (World : Type) (llm : capability World) (q raw : string)
    (s : state World) (w : World) :
  llm q (world s) = (Normal raw, w) ->
  exists subs s', decompose llm q s = (Normal subs, s')
                  /\ 1 <= length subs.
Proof.
  intros Hllm.
  unfold decompose, query_analyzer, bind, call, ret. rewrite Hllm.
  cbn [world stdout sub_response]. unfold sub_questions_cell.
  destruct (list_eq_dec string_dec (str_split LF raw) [""]) as [_|_].
  - eexists _, _. split; [reflexivity|]. simpl. lia.
  - eexists _, _. split; [reflexivity|]. apply str_split_length.
Qed.

Lemma decompose_at_least_one_witness :
  exists subs s',
    decompose (const_llm "  ") "How many GRI requirements?" fresh_kernel
    = (Normal subs, s')
    /\ 1 <= length subs.
Proof.
  apply (decompose_at_least_one nat (const_llm "  ")
           "How many GRI requirements?" "  " fresh_kernel 1); reflexivity.
Defined.

(** C9. For a non-empty raw text, [decompose] returns the lines of its split
    on newlines, verbatim and in order: the result is the list of
    newline-free strings whose join with a newline is the raw text. *)
Theorem decompose_lines_verbatim
    (World : Type) (llm : capability World) (q raw : string)
    (s : state World) (w : World) :
  llm q (world s) = (Normal raw, w) ->
  raw <> "" ->
  exists subs s',
    decompose llm q s = (Normal subs, s')
    /\ subs = str_split LF raw
    /\ str_join nl subs = raw
    /\ Forall (fun line => contains LF line = false) subs.
Proof.
  intros Hllm Hraw.
  unfold decompose, query_analyzer, bind, call, ret. rewrite Hllm.
  cbn [world stdout sub_response]. unfold sub_questions_cell.
  destruct (list_eq_dec string_dec (str_split LF raw) [""]) as [E|_].
  - apply str_split_single_empty in E. contradiction.
  - eexists _, _. split; [reflexivity|]. split; [reflexivity|]. split.
    + apply str_join_split.
    + apply str_split_no_sep.
Qed.

Lemma decompose_lines_verbatim_witness :
  exists subs s',
    decompose (const_llm ("Q1 about Bank A" ++ nl ++ "Q1 about Bank B"))
              "Q1 about Bank A and Bank B" fresh_kernel
    = (Normal subs, s')
    /\ subs = str_split LF ("Q1 about Bank A" ++ nl ++ "Q1 about Bank B")
    /\ str_join nl subs = "Q1 about Bank A" ++ nl ++ "Q1 about Bank B"
    /\ Forall (fun line => contains LF line = false) subs.
Proof.
  apply (decompose_lines_verbatim nat
           (const_llm ("Q1 about Bank A" ++ nl ++ "Q1 about Bank B"))
           "Q1 about Bank A and Bank B"
           ("Q1 about Bank A" ++ nl ++ "Q1 about Bank B") fresh_kernel 1);
    [reflexivity | discriminate].
Defined.

(** A whitespace-only result is not the empty result: its split is not
    [[""]] and it is returned as the only sub-question. *)
Example decompose_blank_result_run :
  decompose (const_llm " ") "How many GRI requirements?" fresh_kernel
  = (Normal [" "],
     mk_state 1 ["Original question was decomposed into 1 sub-questions."]
              None).
Proof. reflexivity. Qed.

(** * Fan-out answerer *)

(** C1. The cell appends to [rag_results] once, after both loops: for every
    sequence of N >= 1 sub-questions the answer sequence has exactly one
    entry, whatever N is. *)
Theorem rag_results_single_entry
    (World : Type) (rag_agent : capability World)
    (q : string) (qs : list string) (s : state World) :
  exists out s',
    rag_results_cell rag_agent (q :: qs) s = (Normal out, s')
    /\ length out = 1.
Proof.
  destruct (fan_out_total World rag_agent (q :: qs) 1 s) as (s' & E & Hb).
  destruct (sub_response s') as [v|] eqn:Hv.
  - exists [v], s'. split; [|reflexivity].
    now apply rag_results_cell_after.
  - exfalso. apply Hb; [left; discriminate | reflexivity].
Qed.

(** The run behind C1 and C6: two sub-questions, both answered at the first
    attempt, one entry in [rag_results]. *)
Example rag_results_two_questions_run :
  rag_results_cell echo_agent ["Q1 about Bank A"; "Q1 about Bank B"]
                   fresh_kernel
  = (Normal ["answer to Q1 about Bank B"],
     mk_state 2
       ["Sub-question 1: Q1 about Bank A"; "Attempt 1";
        "Sub-question 2: Q1 about Bank B"; "Attempt 1"]
       (Some "answer to Q1 about Bank B")).
Proof. reflexivity. Qed.

(** With no sub-question at all, in a kernel where [sub_response] was never
    bound, the statement after the loops raises. *)
Example rag_results_no_question_run :
  rag_results_cell echo_agent [] fresh_kernel
  = (Raise (NameError "sub_response"), fresh_kernel).
Proof. reflexivity. Qed.

(** The text the handler binds is ["No response found."], with a capital
    and a full stop: the run of one sub-question whose two attempts fail. *)
Example exhausted_single_question_run :
  rag_results_cell failing_agent ["Q1 about Bank A"] fresh_kernel
  = (Normal ["No response found."],
     mk_state 2
       ["Sub-question 1: Q1 about Bank A";
        "Attempt 1"; "Error: service unavailable";
        "Attempt 2"; "Error: service unavailable"]
       (Some "No response found.")).
Proof. reflexivity. Qed.

(** C2 at a failing input: of three sub-questions the second fails on both
    attempts.  Both failures are caught, the handler binds the sentinel, and
    the loop goes on with the third sub-question; yet the answer sequence
    holds the answer to the third sub-question only: the second sub-question
    has no entry in it, and the sentinel is not in it. *)
Theorem exhausted_sentinel_is_dropped :
  picky_agent "Q1 about Bank B" 1
    = (Raise (Exception "service unavailable"), 2)
  /\ picky_agent "Q1 about Bank B" 2
     = (Raise (Exception "service unavailable"), 3)
  /\ answer_sub_question picky_agent (2, "Q1 about Bank B")
       (mk_state 1 ["Sub-question 1: Q1 about Bank A"; "Attempt 1"]
                 (Some "answer to Q1 about Bank A"))
     = (Normal Next,
        mk_state 3
          ["Sub-question 1: Q1 about Bank A"; "Attempt 1";
           "Sub-question 2: Q1 about Bank B";
           "Attempt 1"; "Error: service unavailable";
           "Attempt 2"; "Error: service unavailable"]
          (Some "No response found."))
  /\ rag_results_cell picky_agent
       ["Q1 about Bank A"; "Q1 about Bank B"; "Q1 about Bank C"]
       fresh_kernel
     = (Normal ["answer to Q1 about Bank C"],
        mk_state 4
          ["Sub-question 1: Q1 about Bank A"; "Attempt 1";
           "Sub-question 2: Q1 about Bank B";
           "Attempt 1"; "Error: service unavailable";
           "Attempt 2"; "Error: service unavailable";
           "Sub-question 3: Q1 about Bank C"; "Attempt 1"]
          (Some "answer to Q1 about Bank C"))
  /\ nth_error ["answer to Q1 about Bank C"] 1 = None
  /\ ~ In "No response found." ["answer to Q1 about Bank C"].
Proof.
  repeat split; try reflexivity.
  intros [H|[]]. discriminate.
Qed.

(** C3 at a failing input: the first sub-question fails once and is answered
    at the second attempt, yet the answer sequence holds the answer of the
    second sub-question only; the retried result is not in it. *)
Theorem retried_answer_is_dropped :
  flaky_agent "Q1 about Bank A" 0 = (Raise (Exception "timeout"), 1)
  /\ flaky_agent "Q1 about Bank A" 1
     = (Normal "answer to Q1 about Bank A", 2)
  /\ rag_results_cell flaky_agent ["Q1 about Bank A"; "Q1 about Bank B"]
                      fresh_kernel
     = (Normal ["answer to Q1 about Bank B"],
        mk_state 3
          ["Sub-question 1: Q1 about Bank A"; "Attempt 1"; "Error: timeout";
           "Attempt 2"; "Sub-question 2: Q1 about Bank B"; "Attempt 1"]
          (Some "answer to Q1 about Bank B"))
  /\ ~ In "answer to Q1 about Bank A" ["answer to Q1 about Bank B"].
Proof.
  repeat split; try reflexivity.
  intros [H|[]]. discriminate.
Qed.

(** * Recombination *)

(** C5. For sequences of equal length the formatted context is the text of
    the pairs taken in input order, each a labeled question line followed by
    a labeled answer line, numbered 1, 2, ..., separated by one blank line,
    with nothing but trailing whitespace removed; it does not end with
    whitespace. *)
Theorem format_qa_pairs_layout (questions answers : list string) :
  length questions = length answers ->
  format_qa_pairs questions answers = rstrip (spec_context questions answers)
  /\ length (numbered_pairs questions answers) = length questions
  /\ (forall i, i < length questions ->
        nth_error (numbered_pairs questions answers) i
        = Some ("Question " ++ str (S i) ++ ": " ++ nth i questions "" ++ nl
                ++ "Answer " ++ str (S i) ++ ": " ++ nth i answers ""))
  /\ (exists w, all_space w = true
                /\ spec_context questions answers
                   = format_qa_pairs questions answers ++ w)
  /\ no_trailing_space (format_qa_pairs questions answers).
Proof.
  intros Hlen.
  pose proof (format_qa_pairs_rstrip questions answers Hlen) as E.
  split; [exact E|]. split; [|split; [|split]].
  - unfold numbered_pairs. now rewrite length_map, length_seq.
  - intros i Hi. unfold numbered_pairs.
    rewrite nth_error_map, nth_error_seq.
    apply Nat.ltb_lt in Hi. rewrite Hi. reflexivity.
  - rewrite E. apply rstrip_suffix.
  - rewrite E. apply rstrip_no_trailing_space.
Qed.

(** A run of C5 in which the last answer is blank. *)
Lemma format_qa_pairs_layout_witness :
  let questions := ["Q1 about Bank A"; "Q1 about Bank B"] in
  let answers := ["12 "; " "] in
  format_qa_pairs questions answers = rstrip (spec_context questions answers)
  /\ length (numbered_pairs questions answers) = length questions
  /\ (forall i, i < length questions ->
        nth_error (numbered_pairs questions answers) i
        = Some ("Question " ++ str (S i) ++ ": " ++ nth i questions "" ++ nl
                ++ "Answer " ++ str (S i) ++ ": " ++ nth i answers ""))
  /\ (exists w, all_space w = true
                /\ spec_context questions answers
                   = format_qa_pairs questions answers ++ w)
  /\ no_trailing_space (format_qa_pairs questions answers).
Proof.
  apply (format_qa_pairs_layout
           ["Q1 about Bank A"; "Q1 about Bank B"] ["12 "; " "]).
  reflexivity.
Defined.

Example format_qa_pairs_blank_last_answer_run :
  format_qa_pairs ["Q1 about Bank A"; "Q1 about Bank B"] ["12 "; " "]
  = "Question 1: Q1 about Bank A" ++ nl ++ "Answer 1: 12 " ++ nl ++ nl
    ++ "Question 2: Q1 about Bank B" ++ nl ++ "Answer 2:".
Proof. reflexivity. Qed.

(** C6 at its input: both sub-questions are answered at the first attempt,
    and the formatted context holds one pair, the first question with the
    answer to the second; it is not the text of the two pairs. *)
Theorem two_banks_context_has_one_pair :
  answer_and_format echo_agent ["Q1 about Bank A"; "Q1 about Bank B"]
                    fresh_kernel
  = (Normal ("Question 1: Q1 about Bank A" ++ nl
             ++ "Answer 1: answer to Q1 about Bank B"),
     mk_state 2
       ["Sub-question 1: Q1 about Bank A"; "Attempt 1";
        "Sub-question 2: Q1 about Bank B"; "Attempt 1"]
       (Some "answer to Q1 about Bank B"))
  /\ spec_context ["Q1 about Bank A"; "Q1 about Bank B"]
                  ["answer to Q1 about Bank A"; "answer to Q1 about Bank B"]
     = "Question 1: Q1 about Bank A" ++ nl
       ++ "Answer 1: answer to Q1 about Bank A" ++ nl ++ nl
       ++ "Question 2: Q1 about Bank B" ++ nl
       ++ "Answer 2: answer to Q1 about Bank B"
  /\ "Question 1: Q1 about Bank A" ++ nl
     ++ "Answer 1: answer to Q1 about Bank B"
     <> spec_context ["Q1 about Bank A"; "Q1 about Bank B"]
          ["answer to Q1 about Bank A"; "answer to Q1 about Bank B"].
Proof.
  split; [reflexivity|]. split; [reflexivity|].
  apply String.eqb_neq. reflexivity.
Qed.

(** C7, as written, at sequences of lengths 2 and 1: the call does not
    raise, it returns a context of one pair. *)
Lemma unequal_lengths_do_not_raise :
  length ["Q1 about Bank A"; "Q1 about Bank B"]
    <> length ["answer to Q1 about Bank A"]
  /\ context_cell ["Q1 about Bank A"; "Q1 about Bank B"]
                  ["answer to Q1 about Bank A"] fresh_kernel
     = (Normal ("Question 1: Q1 about Bank A" ++ nl
                ++ "Answer 1: answer to Q1 about Bank A"),
        fresh_kernel)
  /\ (forall e,
        fst (context_cell ["Q1 about Bank A"; "Q1 about Bank B"]
                          ["answer to Q1 about Bank A"] fresh_kernel)
        <> Raise e).
Proof.
  split; [discriminate|]. split; [reflexivity|]. intros e. discriminate.
Qed.

(** C7 (amended). For sequences of unequal length the recombination step
    raises nothing: it returns the formatted context of the first
    [min (len questions) (len answers)] pairs and ignores the surplus of the
    longer sequence. *)
Theorem unequal_lengths_are_truncated
    (World : Type) (questions answers : list string) (s : state World) :
  length questions <> length answers ->
  let n := Nat.min (length questions) (length answers) in
  context_cell questions answers s
  = (Normal (format_qa_pairs (firstn n questions) (firstn n answers)), s)
  /\ format_qa_pairs (firstn n questions) (firstn n answers)
     = rstrip (spec_context (firstn n questions) (firstn n answers)).
Proof.
  intros _ n. split.
  - unfold context_cell, ret.
    now rewrite (format_qa_pairs_truncates questions answers).
  - apply format_qa_pairs_rstrip.
    unfold n. rewrite !length_firstn. lia.
Qed.

Lemma unequal_lengths_are_truncated_witness :
  context_cell ["Q1 about Bank A"; "Q1 about Bank B"]
               ["answer to Q1 about Bank A"] fresh_kernel
  = (Normal (format_qa_pairs ["Q1 about Bank A"]
                             ["answer to Q1 about Bank A"]),
     fresh_kernel)
  /\ format_qa_pairs ["Q1 about Bank A"] ["answer to Q1 about Bank A"]
     = rstrip (spec_context ["Q1 about Bank A"]
                            ["answer to Q1 about Bank A"]).
Proof.
  apply (unequal_lengths_are_truncated nat
           ["Q1 about Bank A"; "Q1 about Bank B"]
           ["answer to Q1 about Bank A"] fresh_kernel).
  discriminate.
Defined.

(** C10. The formatted context of zero pairs is the empty string. *)
Theorem format_qa_pairs_nil : format_qa_pairs [] [] = "".
Proof.
  unfold format_qa_pairs.
  (* the loop body never runs: the accumulator is still the empty string *)
  cbn [combine enumerate fold_left].
  (* and stripping the empty string leaves it empty *)
  unfold strip. cbn [lstrip rstrip]. reflexivity.
Qed.

(** * More about the decomposer *)

Section SplitFacts.

Variable sep : ascii.

Lemma str_split_length_count (x : string) :
  length (str_split sep x) = S (count_char sep x).
Proof.
  induction x as [|c r IH]; [reflexivity|]. simpl.
  destruct (Ascii.eqb c sep).
  - simpl. now rewrite IH.
  - destruct (str_split sep r) as [|h t]; simpl in *; lia.
Qed.

Lemma str_split_no_sep_id (x : string) :
  contains sep x = false -> str_split sep x = [x].
Proof.
  induction x as [|c r IH]; [reflexivity|]. simpl.
  destruct (Ascii.eqb c sep); [discriminate|]. simpl.
  intros H. now rewrite (IH H).
Qed.

Lemma str_split_app_sep (x y : string) :
  contains sep x = false ->
  str_split sep (x ++ String sep y) = x :: str_split sep y.
Proof.
  induction x as [|c r IH]; simpl.
  - intros _. now rewrite Ascii.eqb_refl.
  - destruct (Ascii.eqb c sep); [discriminate|]. simpl.
    intros H. now rewrite (IH H).
Qed.

Lemma str_split_trailing_sep (x : string) :
  str_split sep (x ++ String sep "") = (str_split sep x ++ [""])%list.
Proof.
  induction x as [|c r IH]; simpl.
  - now rewrite Ascii.eqb_refl.
  - destruct (Ascii.eqb c sep).
    + now rewrite IH.
    + rewrite IH. destruct (str_split_cons sep r) as (h & t & E).
      now rewrite E.
Qed.

Lemma str_split_join (l : list string) :
  l <> [] ->
  Forall (fun line => contains sep line = false) l ->
  str_split sep (str_join (String sep "") l) = l.
Proof.
  induction l as [|x r IH]; [congruence|]. intros _ Hall.
  inversion Hall as [|? ? Hx Hr]; subst.
  destruct r as [|y r'].
  - now apply str_split_no_sep_id.
  - rewrite str_join_cons2. cbn [append].
    rewrite (str_split_app_sep x _ Hx). f_equal.
    apply IH; [discriminate | exact Hr].
Qed.

End SplitFacts.

(** X1. A failure of the LLM chain is not caught: [decompose] and the whole
    workflow raise it, nothing is printed, and neither the RAG agent nor the
    final chain is called. *)
Theorem llm_failure_propagates
    (World : Type) (llm rag_agent final_llm : capability World)
    (q : string) (s : state World) (e : exn) (w : World) :
  llm q (world s) = (Raise e, w) ->
  decompose llm q s = (Raise e, mk_state w (stdout s) (sub_response s))
  /\ workflow llm rag_agent final_llm q s
     = (Raise e, mk_state w (stdout s) (sub_response s)).
Proof.
  intros H.
  assert (D : decompose llm q s
              = (Raise e, mk_state w (stdout s) (sub_response s))).
  { unfold decompose, query_analyzer, bind, call. now rewrite H. }
  split; [exact D|].
  unfold workflow, bind. now rewrite D.
Qed.

Lemma llm_failure_propagates_witness :
  decompose failing_agent "How many GRI requirements?" fresh_kernel
  = (Raise (Exception "service unavailable"), mk_state 1 [] None)
  /\ workflow failing_agent echo_agent echo_agent
       "How many GRI requirements?" fresh_kernel
     = (Raise (Exception "service unavailable"), mk_state 1 [] None).
Proof.
  apply (llm_failure_propagates nat failing_agent echo_agent echo_agent
           "How many GRI requirements?" fresh_kernel
           (Exception "service unavailable") 1).
  reflexivity.
Defined.

(** X2. For a non-empty raw text the number of sub-questions is one more
    than the number of newlines in it. *)
Theorem decompose_counts_newlines
    (World : Type) (llm : capability World) (q raw : string)
    (s : state World) (w : World) :
  llm q (world s) = (Normal raw, w) ->
  raw <> "" ->
  exists subs s',
    decompose llm q s = (Normal subs, s')
    /\ length subs = S (count_char LF raw).
Proof.
  intros Hllm Hraw.
  unfold decompose, query_analyzer, bind, call, ret. rewrite Hllm.
  cbn [world stdout sub_response]. unfold sub_questions_cell.
  destruct (list_eq_dec string_dec (str_split LF raw) [""]) as [E|_].
  - apply str_split_single_empty in E. contradiction.
  - eexists _, _. split; [reflexivity|]. apply str_split_length_count.
Qed.

Lemma decompose_counts_newlines_witness :
  exists subs s',
    decompose (const_llm ("Q1 about Bank A" ++ nl ++ nl ++ "Q1 about Bank B"))
              "Q1 about Bank A and Bank B" fresh_kernel
    = (Normal subs, s')
    /\ length subs
       = S (count_char LF ("Q1 about Bank A" ++ nl ++ nl ++ "Q1 about Bank B")).
Proof.
  apply (decompose_counts_newlines nat
           (const_llm ("Q1 about Bank A" ++ nl ++ nl ++ "Q1 about Bank B"))
           "Q1 about Bank A and Bank B"
           ("Q1 about Bank A" ++ nl ++ nl ++ "Q1 about Bank B")
           fresh_kernel 1);
    [reflexivity | discriminate].
Defined.

(** X3. A raw text that ends with a newline yields an empty last
    sub-question: the lines before the final newline, then [""]. *)
Theorem decompose_trailing_newline
    (World : Type) (llm : capability World) (q body : string)
    (s : state World) (w : World) :
  llm q (world s) = (Normal (body ++ nl), w) ->
  exists s',
    decompose llm q s = (Normal (str_split LF body ++ [""])%list, s').
Proof.
  intros Hllm.
  unfold decompose, query_analyzer, bind, call, ret. rewrite Hllm.
  cbn [world stdout sub_response]. unfold sub_questions_cell.
  unfold nl. rewrite str_split_trailing_sep.
  destruct (list_eq_dec string_dec (str_split LF body ++ [""])%list [""])
    as [E|_].
  - destruct (str_split_cons LF body) as (h & t & E').
    rewrite E' in E. destruct t; discriminate.
  - eexists. reflexivity.
Qed.

Lemma decompose_trailing_newline_witness :
  exists s',
    decompose (const_llm ("Q1 about Bank A" ++ nl))
              "Q1 about Bank A" fresh_kernel
    = (Normal (str_split LF "Q1 about Bank A" ++ [""])%list, s').
Proof.
  apply (decompose_trailing_newline nat
           (const_llm ("Q1 about Bank A" ++ nl))
           "Q1 about Bank A" "Q1 about Bank A" fresh_kernel 1).
  reflexivity.
Defined.

(** X4. When the LLM chain writes the sub-questions [lines] one per line
    (none of them containing a newline, and not the single empty line),
    [decompose] returns exactly [lines]. *)
Theorem decompose_recovers_lines
    (World : Type) (llm : capability World) (q : string)
    (lines : list string) (s : state World) (w : World) :
  lines <> [] ->
  lines <> [""] ->
  Forall (fun line => contains LF line = false) lines ->
  llm q (world s) = (Normal (str_join nl lines), w) ->
  decompose llm q s
  = (Normal lines,
     mk_state w
       (stdout s ++ ["Original question was decomposed into "
                     ++ str (length lines) ++ " sub-questions."])
       (sub_response s)).
Proof.
  intros Hne Hne' Hall Hllm.
  unfold decompose, query_analyzer, bind, call, ret. rewrite Hllm.
  cbn [world stdout sub_response]. unfold sub_questions_cell.
  unfold nl. rewrite (str_split_join LF lines Hne Hall).
  destruct (list_eq_dec string_dec lines [""]) as [E|_]; [contradiction|].
  reflexivity.
Qed.

Lemma decompose_recovers_lines_witness :
  decompose
    (const_llm (str_join nl ["Q1 about Bank A"; ""; "Q1 about Bank B"]))
    "Q1 about Bank A and Bank B" fresh_kernel
  = (Normal ["Q1 about Bank A"; ""; "Q1 about Bank B"],
     mk_state 1
       ["Original question was decomposed into "
        ++ str (length ["Q1 about Bank A"; ""; "Q1 about Bank B"])
        ++ " sub-questions."]
       None).
Proof.
  apply (decompose_recovers_lines nat
           (const_llm (str_join nl ["Q1 about Bank A"; ""; "Q1 about Bank B"]))
           "Q1 about Bank A and Bank B"
           ["Q1 about Bank A"; ""; "Q1 about Bank B"] fresh_kernel 1).
  - discriminate.
  - discriminate.
  - repeat constructor.
  - reflexivity.
Defined.

(** * More about the fan-out loop *)

Section FanOutMore.

Variable World : Type.
Variable rag_agent : capability World.

(** The first attempt returns: [break], no second attempt. *)
Lemma answer_sub_question_first k q (s : state World) r w :
  rag_agent q (world s) = (Normal r, w) ->
  answer_sub_question rag_agent (k, q) s
  = (Normal Next,
     mk_state w
       (stdout s ++ ["Sub-question " ++ str k ++ ": " ++ q; "Attempt 1"])
       (Some r)).
Proof.
  intros H. unfold answer_sub_question.
  unfold bind at 1. unfold print at 1.
  cbn [seq for_in]. unfold bind at 1. unfold bind at 1.
  rewrite (attempt_returns World rag_agent q 0 _ r w) by exact H.
  cbn [ret world stdout sub_response]. unfold ret.
  repeat rewrite <- app_assoc. reflexivity.
Qed.

(** Processing the sub-question that follows [pre]. *)
Lemma fan_out_through pre q post (s0 s s' : state World) :
  fan_out rag_agent 1 pre s0 = (Normal tt, s) ->
  answer_sub_question rag_agent (S (length pre), q) s = (Normal Next, s') ->
  fan_out rag_agent 1 (pre ++ q :: post) s0
  = fan_out rag_agent (S (S (length pre))) post s'.
Proof.
  intros Hpre Hq.
  rewrite (fan_out_app World rag_agent pre 1 (q :: post) s0 s Hpre).
  now apply fan_out_step.
Qed.

Lemma rag_results_cell_last pre q (s0 s s' : state World) v :
  fan_out rag_agent 1 pre s0 = (Normal tt, s) ->
  answer_sub_question rag_agent (S (length pre), q) s = (Normal Next, s') ->
  sub_response s' = Some v ->
  rag_results_cell rag_agent (pre ++ [q]) s0 = (Normal [v], s').
Proof.
  intros Hpre Hq Hv. apply rag_results_cell_after; [|exact Hv].
  now rewrite (fan_out_through pre q [] s0 s s' Hpre Hq).
Qed.

End FanOutMore.

(** X5. When the first attempt at a sub-question returns, no second attempt
    is made: the agent is called once, its result is the value bound for
    the sub-question, and the loop goes on with the next sub-question; if
    the sub-question is the last one, its answer is the answer sequence. *)
Theorem first_attempt_answer_is_kept
    (World : Type) (rag_agent : capability World)
    (pre : list string) (q : string) (post : list string)
    (s0 s : state World) (r : string) (w : World) :
  fan_out rag_agent 1 pre s0 = (Normal tt, s) ->
  rag_agent q (world s) = (Normal r, w) ->
  let k := S (length pre) in
  let s' :=
    mk_state w
      (stdout s ++ ["Sub-question " ++ str k ++ ": " ++ q; "Attempt 1"])
      (Some r) in
  answer_sub_question rag_agent (k, q) s = (Normal Next, s')
  /\ fan_out rag_agent 1 (pre ++ q :: post) s0
     = fan_out rag_agent (S k) post s'
  /\ rag_results_cell rag_agent (pre ++ [q]) s0 = (Normal [r], s').
Proof.
  intros Hpre H k s'.
  pose proof (answer_sub_question_first World rag_agent k q s r w H) as Hq.
  fold s' in Hq. split; [exact Hq|]. split.
  - now apply (fan_out_through World rag_agent pre q post s0 s s').
  - now apply (rag_results_cell_last World rag_agent pre q s0 s s' r).
Qed.

Lemma first_attempt_answer_is_kept_witness :
  let s' :=
    mk_state 2
      ["Sub-question 1: Q1 about Bank A"; "Attempt 1";
       "Sub-question 2: Q1 about Bank B"; "Attempt 1"]
      (Some "answer to Q1 about Bank B") in
  answer_sub_question echo_agent (2, "Q1 about Bank B")
    (mk_state 1 ["Sub-question 1: Q1 about Bank A"; "Attempt 1"]
              (Some "answer to Q1 about Bank A"))
  = (Normal Next, s')
  /\ fan_out echo_agent 1
       ["Q1 about Bank A"; "Q1 about Bank B"; "Q1 about Bank C"] fresh_kernel
     = fan_out echo_agent 3 ["Q1 about Bank C"] s'
  /\ rag_results_cell echo_agent ["Q1 about Bank A"; "Q1 about Bank B"]
       fresh_kernel
     = (Normal ["answer to Q1 about Bank B"], s').
Proof.
  apply (first_attempt_answer_is_kept nat echo_agent
           ["Q1 about Bank A"] "Q1 about Bank B" ["Q1 about Bank C"]
           fresh_kernel
           (mk_state 1 ["Sub-question 1: Q1 about Bank A"; "Attempt 1"]
                     (Some "answer to Q1 about Bank A"))
           "answer to Q1 about Bank B" 2); reflexivity.
Defined.

(** X6. When the first attempt at a sub-question raises and the second
    returns, the value bound for the sub-question is the second result (the
    sentinel assigned by the handler is overwritten), the loop goes on, and
    if the sub-question is the last one the second result is the answer
    sequence. *)
Theorem second_attempt_answer_replaces_sentinel
    (World : Type) (rag_agent : capability World)
    (pre : list string) (q : string) (post : list string)
    (s0 s : state World) (e1 : exn) (r2 : string) (w1 w2 : World) :
  fan_out rag_agent 1 pre s0 = (Normal tt, s) ->
  rag_agent q (world s) = (Raise e1, w1) ->
  rag_agent q w1 = (Normal r2, w2) ->
  let k := S (length pre) in
  let s' :=
    mk_state w2
      (stdout s ++ ["Sub-question " ++ str k ++ ": " ++ q;
                    "Attempt 1"; "Error: " ++ str_exn e1; "Attempt 2"])
      (Some r2) in
  answer_sub_question rag_agent (k, q) s = (Normal Next, s')
  /\ fan_out rag_agent 1 (pre ++ q :: post) s0
     = fan_out rag_agent (S k) post s'
  /\ rag_results_cell rag_agent (pre ++ [q]) s0 = (Normal [r2], s').
Proof.
  intros Hpre H1 H2 k s'.
  pose proof (answer_sub_question_retried World rag_agent k q s
                e1 w1 r2 w2 H1 H2) as Hq.
  fold s' in Hq. split; [exact Hq|]. split.
  - now apply (fan_out_through World rag_agent pre q post s0 s s').
  - now apply (rag_results_cell_last World rag_agent pre q s0 s s' r2).
Qed.

Lemma second_attempt_answer_replaces_sentinel_witness :
  let s' :=
    mk_state 2
      ["Sub-question 1: Q1 about Bank A"; "Attempt 1"; "Error: timeout";
       "Attempt 2"]
      (Some "answer to Q1 about Bank A") in
  answer_sub_question flaky_agent (1, "Q1 about Bank A") fresh_kernel
  = (Normal Next, s')
  /\ fan_out flaky_agent 1 ["Q1 about Bank A"; "Q1 about Bank B"] fresh_kernel
     = fan_out flaky_agent 2 ["Q1 about Bank B"] s'
  /\ rag_results_cell flaky_agent ["Q1 about Bank A"] fresh_kernel
     = (Normal ["answer to Q1 about Bank A"], s').
Proof.
  apply (second_attempt_answer_replaces_sentinel nat flaky_agent
           [] "Q1 about Bank A" ["Q1 about Bank B"]
           fresh_kernel fresh_kernel (Exception "timeout")
           "answer to Q1 about Bank A" 1 2); reflexivity.
Defined.

Section InterruptFacts.

Variable World : Type.
Variable rag_agent : Interrupt.capability World.

Lemma interrupt_attempt_returns q k (s : state World) r w :
  rag_agent q (world s) = (Interrupt.Returns r, w) ->
  Interrupt.attempt rag_agent q k s
  = (Interrupt.Returns Break,
     mk_state w (stdout s ++ ["Attempt " ++ str (k + 1)]) (Some r)).
Proof.
  intros H.
  unfold Interrupt.attempt, Interrupt.bind, Interrupt.try_except,
    Interrupt.call, Interrupt.print, Interrupt.set_sub_response,
    Interrupt.ret.
  cbn [world stdout sub_response]. rewrite H. reflexivity.
Qed.

(** An instance of [Exception] is caught. *)
Lemma interrupt_attempt_caught q k (s : state World) e w :
  rag_agent q (world s) = (Interrupt.Raises (Interrupt.OfException e), w) ->
  Interrupt.attempt rag_agent q k s
  = (Interrupt.Returns Next,
     mk_state w
       (stdout s ++ ["Attempt " ++ str (k + 1); "Error: " ++ str_exn e])
       (Some "No response found.")).
Proof.
  intros H.
  unfold Interrupt.attempt, Interrupt.bind, Interrupt.try_except,
    Interrupt.call, Interrupt.print, Interrupt.set_sub_response,
    Interrupt.ret.
  cbn [world stdout sub_response]. rewrite H.
  cbn [world stdout sub_response]. rewrite <- app_assoc. reflexivity.
Qed.

(** Anything else goes through the handler: no error line, no sentinel. *)
Lemma interrupt_attempt_through q k (s : state World) c w :
  rag_agent q (world s) = (Interrupt.Raises (Interrupt.NotOfException c), w) ->
  Interrupt.attempt rag_agent q k s
  = (Interrupt.Raises (Interrupt.NotOfException c),
     mk_state w (stdout s ++ ["Attempt " ++ str (k + 1)]) (sub_response s)).
Proof.
  intros H.
  unfold Interrupt.attempt, Interrupt.bind, Interrupt.try_except,
    Interrupt.call, Interrupt.print, Interrupt.set_sub_response,
    Interrupt.ret.
  cbn [world stdout sub_response]. rewrite H. reflexivity.
Qed.

Ltac open_sub_question :=
  unfold Interrupt.answer_sub_question;
  unfold Interrupt.bind at 1; unfold Interrupt.print at 1;
  cbn [seq Interrupt.for_in];
  unfold Interrupt.bind at 1; unfold Interrupt.bind at 1.

Lemma interrupt_answer_first k q (s : state World) r w :
  rag_agent q (world s) = (Interrupt.Returns r, w) ->
  Interrupt.answer_sub_question rag_agent (k, q) s
  = (Interrupt.Returns Next,
     mk_state w
       (stdout s ++ ["Sub-question " ++ str k ++ ": " ++ q; "Attempt 1"])
       (Some r)).
Proof.
  intros H. open_sub_question.
  rewrite (interrupt_attempt_returns q 0 _ r w) by exact H.
  cbn [world stdout sub_response]. unfold Interrupt.ret.
  repeat rewrite <- app_assoc. reflexivity.
Qed.

Lemma interrupt_answer_retried k q (s : state World) e1 w1 r2 w2 :
  rag_agent q (world s) = (Interrupt.Raises (Interrupt.OfException e1), w1) ->
  rag_agent q w1 = (Interrupt.Returns r2, w2) ->
  Interrupt.answer_sub_question rag_agent (k, q) s
  = (Interrupt.Returns Next,
     mk_state w2
       (stdout s ++ ["Sub-question " ++ str k ++ ": " ++ q;
                     "Attempt 1"; "Error: " ++ str_exn e1; "Attempt 2"])
       (Some r2)).
Proof.
  intros H1 H2. open_sub_question.
  rewrite (interrupt_attempt_caught q 0 _ e1 w1) by exact H1.
  unfold Interrupt.bind at 1.
  rewrite (interrupt_attempt_returns q 1 _ r2 w2) by exact H2.
  cbn [world stdout sub_response]. unfold Interrupt.ret.
  repeat rewrite <- app_assoc. reflexivity.
Qed.

Lemma interrupt_answer_exhausted k q (s : state World) e1 w1 e2 w2 :
  rag_agent q (world s) = (Interrupt.Raises (Interrupt.OfException e1), w1) ->
  rag_agent q w1 = (Interrupt.Raises (Interrupt.OfException e2), w2) ->
  Interrupt.answer_sub_question rag_agent (k, q) s
  = (Interrupt.Returns Next,
     mk_state w2
       (stdout s ++ ["Sub-question " ++ str k ++ ": " ++ q;
                     "Attempt 1"; "Error: " ++ str_exn e1;
                     "Attempt 2"; "Error: " ++ str_exn e2])
       (Some "No response found.")).
Proof.
  intros H1 H2. open_sub_question.
  rewrite (interrupt_attempt_caught q 0 _ e1 w1) by exact H1.
  unfold Interrupt.bind at 1.
  rewrite (interrupt_attempt_caught q 1 _ e2 w2) by exact H2.
  cbn [world stdout sub_response]. unfold Interrupt.ret.
  repeat rewrite <- app_assoc. reflexivity.
Qed.

(** The first attempt is interrupted: both loops are left at once. *)
Lemma interrupt_answer_through k q (s : state World) c w :
  rag_agent q (world s) = (Interrupt.Raises (Interrupt.NotOfException c), w) ->
  Interrupt.answer_sub_question rag_agent (k, q) s
  = (Interrupt.Raises (Interrupt.NotOfException c),
     mk_state w
       (stdout s ++ ["Sub-question " ++ str k ++ ": " ++ q; "Attempt 1"])
       (sub_response s)).
Proof.
  intros H. open_sub_question.
  rewrite (interrupt_attempt_through q 0 _ c w) by exact H.
  cbn [world stdout sub_response].
  repeat rewrite <- app_assoc. reflexivity.
Qed.

(** The body of the outer loop never ends with [break]. *)
Lemma interrupt_answer_next p (s s' : state World) sg :
  Interrupt.answer_sub_question rag_agent p s = (Interrupt.Returns sg, s') ->
  sg = Next.
Proof.
  destruct p as [k q]. unfold Interrupt.answer_sub_question.
  unfold Interrupt.bind at 1. unfold Interrupt.print at 1.
  unfold Interrupt.bind at 1.
  destruct (Interrupt.for_in _ _ _) as [[u|r] s1]; unfold Interrupt.ret;
    intros H; now inversion H.
Qed.

Lemma interrupt_fan_out_step k q qs (s s' : state World) :
  Interrupt.answer_sub_question rag_agent (k, q) s
    = (Interrupt.Returns Next, s') ->
  Interrupt.fan_out rag_agent k (q :: qs) s
  = Interrupt.fan_out rag_agent (S k) qs s'.
Proof.
  intros E. unfold Interrupt.fan_out. cbn [enumerate Interrupt.for_in].
  unfold Interrupt.bind. rewrite E. reflexivity.
Qed.

Lemma interrupt_fan_out_raise k q qs (s s' : state World) r :
  Interrupt.answer_sub_question rag_agent (k, q) s
    = (Interrupt.Raises r, s') ->
  Interrupt.fan_out rag_agent k (q :: qs) s = (Interrupt.Raises r, s').
Proof.
  intros E. unfold Interrupt.fan_out. cbn [enumerate Interrupt.for_in].
  unfold Interrupt.bind. rewrite E. reflexivity.
Qed.

Lemma interrupt_fan_out_app pre : forall k post (s s' : state World),
  Interrupt.fan_out rag_agent k pre s = (Interrupt.Returns tt, s') ->
  Interrupt.fan_out rag_agent k (pre ++ post) s
  = Interrupt.fan_out rag_agent (k + length pre) post s'.
Proof.
  induction pre as [|q pre IH]; intros k post s s' E.
  - cbn in E. injection E as <-. cbn [app length]. now rewrite Nat.add_0_r.
  - destruct (Interrupt.answer_sub_question rag_agent (k, q) s)
      as [[sg|r] s1] eqn:E1.
    + pose proof (interrupt_answer_next _ _ _ _ E1) as ->.
      rewrite (interrupt_fan_out_step _ _ _ _ _ E1) in E.
      cbn [app length]. rewrite (interrupt_fan_out_step _ _ _ _ _ E1).
      rewrite (IH (S k) post s1 s' E). f_equal. lia.
    + rewrite (interrupt_fan_out_raise _ _ _ _ _ _ E1) in E. discriminate.
Qed.

End InterruptFacts.

Section CallBudget.

Variable World : Type.
Variable rag_agent : Interrupt.capability World.
Hypothesis Hcaught : Interrupt.only_exceptions rag_agent.

(** One sub-question costs one or two calls. *)
Lemma interrupt_answer_calls p (s : state (World * nat)) :
  exists s',
    Interrupt.answer_sub_question (Interrupt.counting rag_agent) p s
    = (Interrupt.Returns Next, s')
    /\ S (snd (world s)) <= snd (world s') <= 2 + snd (world s).
Proof.
  destruct p as [k q].
  destruct (rag_agent q (fst (world s))) as [[r|[e1|c]] w1] eqn:H1.
  - eexists. split.
    + apply interrupt_answer_first.
      unfold Interrupt.counting. rewrite H1. reflexivity.
    + cbn [world snd]. lia.
  - destruct (rag_agent q w1) as [[r2|[e2|c]] w2] eqn:H2.
    + eexists. split.
      * apply (interrupt_answer_retried _ (Interrupt.counting rag_agent)
                 k q s e1 (w1, S (snd (world s))) r2
                 (w2, S (S (snd (world s))))).
        -- unfold Interrupt.counting. rewrite H1. reflexivity.
        -- unfold Interrupt.counting. cbn [fst snd]. rewrite H2.
           reflexivity.
      * cbn [world snd]. lia.
    + eexists. split.
      * apply (interrupt_answer_exhausted _ (Interrupt.counting rag_agent)
                 k q s e1 (w1, S (snd (world s))) e2
                 (w2, S (S (snd (world s))))).
        -- unfold Interrupt.counting. rewrite H1. reflexivity.
        -- unfold Interrupt.counting. cbn [fst snd]. rewrite H2.
           reflexivity.
      * cbn [world snd]. lia.
    + exfalso. exact (Hcaught q w1 c w2 H2).
  - exfalso. exact (Hcaught q (fst (world s)) c w1 H1).
Qed.

End CallBudget.

(** X7. When every failure of the RAG agent is an instance of [Exception]
    (the class the handler catches), the two loops never raise and call the
    agent at least once and at most twice per sub-question: between N and 2N
    calls for N sub-questions. *)
Theorem fan_out_call_budget
    (World : Type) (rag_agent : Interrupt.capability World)
    (sub_questions : list string) (k : nat) (s : state (World * nat)) :
  Interrupt.only_exceptions rag_agent ->
  exists s',
    Interrupt.fan_out (Interrupt.counting rag_agent) k sub_questions s
    = (Interrupt.Returns tt, s')
    /\ snd (world s) + length sub_questions <= snd (world s')
    /\ snd (world s') <= snd (world s) + 2 * length sub_questions.
Proof.
  intros Hcaught.
  revert k s. induction sub_questions as [|q qs IH]; intros k s.
  - exists s. split; [reflexivity|]. simpl. lia.
  - destruct (interrupt_answer_calls World rag_agent Hcaught (k, q) s)
      as (s1 & E1 & Hlo & Hhi).
    rewrite (interrupt_fan_out_step _ _ _ _ _ _ _ E1).
    destruct (IH (S k) s1) as (s2 & E2 & Hlo2 & Hhi2).
    exists s2. split; [exact E2|]. simpl length. lia.
Qed.

Lemma fan_out_call_budget_witness :
  exists s',
    Interrupt.fan_out (Interrupt.counting (of_exceptions flaky_agent)) 1
      ["Q1 about Bank A"; "Q1 about Bank B"] (mk_state (0, 0) [] None)
    = (Interrupt.Returns tt, s')
    /\ 0 + length ["Q1 about Bank A"; "Q1 about Bank B"] <= snd (world s')
    /\ snd (world s')
       <= 0 + 2 * length ["Q1 about Bank A"; "Q1 about Bank B"].
Proof.
  apply (fan_out_call_budget nat (of_exceptions flaky_agent)
           ["Q1 about Bank A"; "Q1 about Bank B"] 1
           (mk_state (0, 0) [] None)).
  intros x w c w'. unfold of_exceptions, flaky_agent.
  destruct w; discriminate.
Defined.

(** X24. A failure of the RAG agent that is not an instance of [Exception]
    ([KeyboardInterrupt], [SystemExit]) is not caught by the handler: raised
    at the first attempt at a sub-question, it leaves both loops at once,
    no error line is printed, no sentinel is bound, the sub-questions that
    follow are not processed and nothing is appended to [rag_results]. *)
Theorem not_exception_aborts_the_cell
    (World : Type) (rag_agent : Interrupt.capability World)
    (pre : list string) (q : string) (post : list string)
    (s0 s : state World) (c : string) (w : World) :
  Interrupt.fan_out rag_agent 1 pre s0 = (Interrupt.Returns tt, s) ->
  rag_agent q (world s) = (Interrupt.Raises (Interrupt.NotOfException c), w) ->
  Interrupt.rag_results_cell rag_agent (pre ++ q :: post) s0
  = (Interrupt.Raises (Interrupt.NotOfException c),
     mk_state w
       (stdout s ++ ["Sub-question " ++ str (S (length pre)) ++ ": " ++ q;
                     "Attempt 1"])
       (sub_response s)).
Proof.
  intros Hpre H.
  unfold Interrupt.rag_results_cell, Interrupt.bind.
  rewrite (interrupt_fan_out_app World rag_agent pre 1 (q :: post) s0 s Hpre).
  cbn [Nat.add].
  now rewrite (interrupt_fan_out_raise World rag_agent _ q post s _ _
                 (interrupt_answer_through World rag_agent _ q s c w H)).
Qed.

Lemma not_exception_aborts_the_cell_witness :
  Interrupt.rag_results_cell Interrupt.interrupted_agent
    ([] ++ "Q1 about Bank A" :: ["Q1 about Bank B"]) fresh_kernel
  = (Interrupt.Raises (Interrupt.NotOfException "KeyboardInterrupt"),
     mk_state 1
       ([] ++ ["Sub-question " ++ str (S (length (@nil string))) ++ ": "
               ++ "Q1 about Bank A";
               "Attempt 1"])
       None).
Proof.
  apply (not_exception_aborts_the_cell nat Interrupt.interrupted_agent
           [] "Q1 about Bank A" ["Q1 about Bank B"]
           fresh_kernel fresh_kernel "KeyboardInterrupt" 1);
    reflexivity.
Defined.

Section TwoModels.

Variable World : Type.
Variable rag_agent : capability World.

(** On an agent whose failures are all instances of [Exception] the two
    models of the loop agree. *)
Lemma answer_sub_question_agrees p (s : state World) :
  Interrupt.answer_sub_question (of_exceptions rag_agent) p s
  = (as_outcome (fst (answer_sub_question rag_agent p s)),
     snd (answer_sub_question rag_agent p s)).
Proof.
  destruct p as [k q].
  destruct (rag_agent q (world s)) as [[r|e1] w1] eqn:H1.
  - rewrite (answer_sub_question_first World rag_agent k q s r w1 H1).
    apply interrupt_answer_first.
    unfold of_exceptions. now rewrite H1.
  - destruct (rag_agent q w1) as [[r2|e2] w2] eqn:H2.
    + rewrite (answer_sub_question_retried World rag_agent k q s
                 e1 w1 r2 w2 H1 H2).
      apply (interrupt_answer_retried World (of_exceptions rag_agent)
               k q s e1 w1 r2 w2).
      * unfold of_exceptions. now rewrite H1.
      * unfold of_exceptions. now rewrite H2.
    + rewrite (answer_sub_question_exhausted World rag_agent k q s
                 e1 w1 e2 w2 H1 H2).
      apply (interrupt_answer_exhausted World (of_exceptions rag_agent)
               k q s e1 w1 e2 w2).
      * unfold of_exceptions. now rewrite H1.
      * unfold of_exceptions. now rewrite H2.
Qed.

Lemma fan_out_agrees qs : forall k (s : state World),
  Interrupt.fan_out (of_exceptions rag_agent) k qs s
  = (as_outcome (fst (fan_out rag_agent k qs s)),
     snd (fan_out rag_agent k qs s)).
Proof.
  induction qs as [|q qs IH]; intros k s; [reflexivity|].
  destruct (answer_sub_question_total World rag_agent (k, q) s)
    as (s1 & E & _).
  rewrite (fan_out_step World rag_agent k q qs s s1 E).
  rewrite (interrupt_fan_out_step World (of_exceptions rag_agent)
             k q qs s s1).
  - apply IH.
  - rewrite answer_sub_question_agrees, E. reflexivity.
Qed.

Lemma rag_results_cell_agrees qs (s : state World) :
  Interrupt.rag_results_cell (of_exceptions rag_agent) qs s
  = (as_outcome (fst (rag_results_cell rag_agent qs s)),
     snd (rag_results_cell rag_agent qs s)).
Proof.
  unfold Interrupt.rag_results_cell, rag_results_cell, Interrupt.bind, bind.
  rewrite fan_out_agrees.
  destruct (fan_out_total World rag_agent qs 1 s) as (s1 & E & _).
  rewrite E. cbn [fst snd as_outcome].
  unfold Interrupt.get_sub_response, get_sub_response, Interrupt.ret, ret.
  destruct (sub_response s1); reflexivity.
Qed.

End TwoModels.

(** With no sub-question at all the agent is not called and the cell
    appends whatever [sub_response] holds from an earlier run; in a kernel
    where the variable was never bound it raises [NameError]. *)
Lemma rag_results_of_no_question
    (World : Type) (rag_agent : capability World) (s : state World) :
  rag_results_cell rag_agent [] s
  = match sub_response s with
    | Some stale => (Normal [stale], s)
    | None => (Raise (NameError "sub_response"), s)
    end.
Proof.
  unfold rag_results_cell, fan_out, bind, get_sub_response, ret.
  cbn [enumerate for_in]. unfold ret.
  destruct (sub_response s); reflexivity.
Qed.

(** * More about the recombination *)

Section LastAnswer.

Lemma pair_texts_snoc l : forall k q a,
  pair_texts k (l ++ [(q, a)])
  = (pair_texts k l ++ [qa_pair_text (k + length l) q a])%list.
Proof.
  induction l as [|[q0 a0] l IH]; intros k q a.
  - simpl. now rewrite Nat.add_0_r.
  - cbn [app pair_texts length]. rewrite IH.
    now rewrite Nat.add_succ_r.
Qed.

Lemma str_join_snoc sep l : forall t,
  str_join sep (l ++ [t])
  = match l with
    | [] => t
    | _ :: _ => str_join sep l ++ sep ++ t
    end.
Proof.
  induction l as [|x r IH]; intros t; [reflexivity|].
  destruct r as [|y r'].
  - reflexivity.
  - change ((x :: y :: r') ++ [t])%list with (x :: ((y :: r') ++ [t]))%list.
    cbn [app]. rewrite str_join_cons2.
    change (y :: (r' ++ [t])%list) with ((y :: r') ++ [t])%list.
    rewrite IH, str_join_cons2. now rewrite !str_app_assoc.
Qed.

(** The text of the pairs ends with the last answer, and what precedes it
    does not depend on that answer. *)
Lemma pair_texts_join_last k l q :
  exists before, forall a,
    str_join (nl ++ nl) (pair_texts k (l ++ [(q, a)])) = before ++ a.
Proof.
  destruct (pair_texts k l) as [|x r] eqn:E.
  - exists ("Question " ++ str (k + length l) ++ ": " ++ q ++ nl
            ++ "Answer " ++ str (k + length l) ++ ": ").
    intros a. rewrite pair_texts_snoc, E. cbn [app str_join].
    unfold qa_pair_text. now rewrite !str_app_assoc.
  - exists (str_join (nl ++ nl) (x :: r) ++ (nl ++ nl)
            ++ "Question " ++ str (k + length l) ++ ": " ++ q ++ nl
            ++ "Answer " ++ str (k + length l) ++ ": ").
    intros a. rewrite pair_texts_snoc, E, str_join_snoc.
    unfold qa_pair_text. now rewrite !str_app_assoc.
Qed.

Lemma combine_snoc (l : list string) : forall (l' : list string) x y,
  length l = length l' ->
  combine (l ++ [x]) (l' ++ [y]) = (combine l l' ++ [(x, y)])%list.
Proof.
  induction l as [|h t IH]; intros [|h' t'] x y Hlen; try discriminate.
  - reflexivity.
  - injection Hlen as Hlen. cbn [app combine]. now rewrite IH.
Qed.

Lemma format_qa_pairs_pair_texts qs ans :
  length qs = length ans ->
  format_qa_pairs qs ans
  = rstrip (str_join (nl ++ nl) (pair_texts 1 (combine qs ans))).
Proof.
  intros Hlen. rewrite (format_qa_pairs_rstrip qs ans Hlen).
  unfold spec_context, numbered_pairs.
  pose proof (pair_texts_numbered qs 1 ans Hlen) as P.
  cbn [Nat.add] in P. now rewrite <- P.
Qed.

Lemma rstrip_app_rstrip (p a : string) :
  rstrip (p ++ a) = rstrip (p ++ rstrip a).
Proof.
  destruct (rstrip_suffix a) as (w & Hw & E).
  rewrite E at 1. rewrite <- str_app_assoc.
  now apply rstrip_app_space.
Qed.

End LastAnswer.

(** X8. Trailing whitespace of the last answer is not kept: on sequences of
    equal length, replacing the last answer by its right-stripped text gives
    the same context. *)
Theorem last_answer_is_right_stripped
    (questions : list string) (q : string)
    (answers : list string) (a : string) :
  length questions = length answers ->
  format_qa_pairs (questions ++ [q]) (answers ++ [a])
  = format_qa_pairs (questions ++ [q]) (answers ++ [rstrip a]).
Proof.
  intros Hlen.
  assert (Hlen' : forall x,
            length (questions ++ [q])%list = length (answers ++ [x])%list).
  { intros x. rewrite !length_app. simpl. lia. }
  rewrite (format_qa_pairs_pair_texts _ _ (Hlen' a)).
  rewrite (format_qa_pairs_pair_texts _ _ (Hlen' (rstrip a))).
  rewrite !combine_snoc by exact Hlen.
  destruct (pair_texts_join_last 1 (combine questions answers) q)
    as (before & Hb).
  rewrite !Hb. apply rstrip_app_rstrip.
Qed.

Lemma last_answer_is_right_stripped_witness :
  format_qa_pairs (["Q1 about Bank A"] ++ ["Q1 about Bank B"])
                  (["12"] ++ ["7 " ++ nl])
  = format_qa_pairs (["Q1 about Bank A"] ++ ["Q1 about Bank B"])
                    (["12"] ++ [rstrip ("7 " ++ nl)]).
Proof.
  apply (last_answer_is_right_stripped
           ["Q1 about Bank A"] "Q1 about Bank B" ["12"] ("7 " ++ nl)).
  reflexivity.
Defined.

(** * The cells run in order *)

Section WorkflowFacts.

Variable World : Type.
Variable llm rag_agent final_llm : capability World.



End WorkflowFacts.



(** * The HTTP client cells *)

Module ClientFacts.
Import Client.

Local Notation "x <- m ;; k" := (bind m (fun x => k))
  (at level 61, m at next level, right associativity).
Local Notation "m ;; k" := (bind m (fun _ => k))
  (at level 61, right associativity).

Ltac step := cbn [world stdout exc_msg exc_class_of].

Ltac run_request :=
  unfold try_except, bind, post, raise_for_status, response_json, get, iter,
    print, ret, raise;
  step.

Section InvokeFacts.

Variable World : Type.
Variable uuid4 : World -> string * World.
Variable requests_post :
  string -> json -> bool -> World -> outcome response * World.
Variable py_repr : json -> string.

Lemma bind_ok {A B : Type} (m : M World A) (k : A -> M World B)
    (s s' : state World) (a : A) :
  m s = (Ok a, s') -> bind m k s = k a s'.
Proof. intros H. unfold bind. now rewrite H. Qed.

Lemma bind_err {A B : Type} (m : M World A) (k : A -> M World B)
    (s s' : state World) (e : exc) :
  m s = (Err e, s') -> bind m k s = (Err e, s').
Proof. intros H. unfold bind. now rewrite H. Qed.

Lemma thread_id_or_uuid_total (thread_id : string) (s : state World) :
  exists tid w,
    thread_id_or_uuid uuid4 thread_id s = (Ok tid, mk_state w (stdout s)).
Proof.
  destruct thread_id as [|c r]; simpl.
  - destruct (uuid4 (world s)) as [u w]. now exists u, w.
  - exists (String c r), (world s). now destruct s.
Qed.

(** A thread id that is given is used as it is; [uuid4] is not called. *)
Lemma thread_id_or_uuid_given (thread_id : string) (s : state World) :
  thread_id <> "" ->
  thread_id_or_uuid uuid4 thread_id s = (Ok thread_id, s).
Proof. destruct thread_id; [congruence | reflexivity]. Qed.

Lemma invoke_request_total url payload (s : state World) :
  exists line w,
    try_except
      (response <- post requests_post url payload false ;;
       raise_for_status response ;;
       data <- response_json response ;;
       final_answer <- get data "final_answer" JNull ;;
       print ("[/invoke response] final_answer: "
              ++ py_str py_repr final_answer))
      (fun err => print ("[/invoke] HTTP Error: " ++ exc_msg err))
      (fun e => print ("[/invoke] An error occurred: " ++ exc_msg e)) s
    = (Ok tt, mk_state w (stdout s ++ line ++ nl))
    /\ ((exists v, line = "[/invoke response] final_answer: " ++ v)
        \/ (exists m, line = "[/invoke] HTTP Error: " ++ m)
        \/ (exists m, line = "[/invoke] An error occurred: " ++ m)).
Proof.
  run_request.
  destruct (requests_post url payload false (world s)) as [[resp|e] w].
  - destruct (status_error resp) as [msg|]; step.
    + eexists _, _. split; [reflexivity|]. right. left. eauto.
    + destruct (json_body resp) as [data|e].
      * destruct data; step;
          (eexists _, _; split; [reflexivity|]; eauto).
      * destruct (exc_class_of e) eqn:Hc; step; rewrite ?Hc;
          (eexists _, _; split; [reflexivity|]; eauto).
  - destruct (exc_class_of e) eqn:Hc; step; rewrite ?Hc;
      (eexists _, _; split; [reflexivity|]; eauto).
Qed.

(** X10. [call_invoke] never raises: whatever the backend does, it returns
    after printing the banner and exactly one more line, which reports the
    answer, an HTTP error, or another error. *)
Theorem call_invoke_never_raises (question thread_id : string)
    (s : state World) :
  exists line s',
    call_invoke uuid4 requests_post py_repr question thread_id s = (Ok tt, s')
    /\ stdout s'
       = stdout s ++ (nl ++ "--- Calling /invoke with question: " ++ question)
         ++ nl ++ line ++ nl
    /\ ((exists v, line = "[/invoke response] final_answer: " ++ v)
        \/ (exists m, line = "[/invoke] HTTP Error: " ++ m)
        \/ (exists m, line = "[/invoke] An error occurred: " ++ m)).
Proof.
  destruct (thread_id_or_uuid_total thread_id s) as (tid & w0 & Ht).
  unfold call_invoke. unfold bind at 1. rewrite Ht.
  unfold bind at 1. unfold print at 1. cbn [world stdout].
  match goal with |- context [try_except ?b ?h1 ?h2 ?st] =>
    destruct (invoke_request_total (BASE_URL ++ "/invoke")
                (JObj [("user_input", JStr question);
                       ("thread_id", JStr tid)]) st)
      as (line & w & E & Hshape)
  end.
  exists line. eexists. split; [exact E|]. split; [|exact Hshape].
  cbn [stdout]. now rewrite !str_app_assoc.
Qed.

(** X11. On a response without error status whose body is a JSON object,
    [call_invoke] prints the value under ["final_answer"] as Python formats
    it, and [None] when the object has no such key. *)
Theorem call_invoke_prints_final_answer (question thread_id : string)
    (s : state World) (resp : response) (w : World)
    (members : list (string * json)) :
  thread_id <> "" ->
  requests_post (BASE_URL ++ "/invoke")
    (JObj [("user_input", JStr question); ("thread_id", JStr thread_id)])
    false (world s) = (Ok resp, w) ->
  status_error resp = None ->
  json_body resp = Ok (JObj members) ->
  call_invoke uuid4 requests_post py_repr question thread_id s
  = (Ok tt,
     mk_state w
       (stdout s ++ (nl ++ "--- Calling /invoke with question: " ++ question)
        ++ nl
        ++ ("[/invoke response] final_answer: "
            ++ match lookup "final_answer" members with
               | Some v => py_str py_repr v
               | None => "None"
               end)
        ++ nl)).
Proof.
  intros Ht Hpost Hstatus Hbody.
  unfold call_invoke. unfold bind at 1.
  rewrite (thread_id_or_uuid_given thread_id s Ht).
  unfold bind at 1. unfold print at 1.
  run_request. rewrite Hpost, Hstatus. step. rewrite Hbody. step.
  destruct (lookup "final_answer" members);
    now rewrite !str_app_assoc.
Qed.

(** X12. An error status wins over the body: [call_invoke] prints the HTTP
    error line and does not look at the JSON body. *)
Theorem call_invoke_reports_http_error (question thread_id : string)
    (s : state World) (resp : response) (w : World) (msg : string) :
  thread_id <> "" ->
  requests_post (BASE_URL ++ "/invoke")
    (JObj [("user_input", JStr question); ("thread_id", JStr thread_id)])
    false (world s) = (Ok resp, w) ->
  status_error resp = Some msg ->
  call_invoke uuid4 requests_post py_repr question thread_id s
  = (Ok tt,
     mk_state w
       (stdout s ++ (nl ++ "--- Calling /invoke with question: " ++ question)
        ++ nl ++ ("[/invoke] HTTP Error: " ++ msg) ++ nl)).
Proof.
  intros Ht Hpost Hstatus.
  unfold call_invoke. unfold bind at 1.
  rewrite (thread_id_or_uuid_given thread_id s Ht).
  unfold bind at 1. unfold print at 1.
  run_request. rewrite Hpost, Hstatus. step.
  now rewrite !str_app_assoc.
Qed.

(** X13. A body that is JSON but not an object is reported as an error: the
    line carries the [AttributeError] text for the type of the value. *)
Theorem call_invoke_body_not_an_object (question thread_id : string)
    (s : state World) (resp : response) (w : World) (data : json) :
  thread_id <> "" ->
  requests_post (BASE_URL ++ "/invoke")
    (JObj [("user_input", JStr question); ("thread_id", JStr thread_id)])
    false (world s) = (Ok resp, w) ->
  status_error resp = None ->
  json_body resp = Ok data ->
  (forall members, data <> JObj members) ->
  call_invoke uuid4 requests_post py_repr question thread_id s
  = (Ok tt,
     mk_state w
       (stdout s ++ (nl ++ "--- Calling /invoke with question: " ++ question)
        ++ nl
        ++ ("[/invoke] An error occurred: '" ++ type_name data
            ++ "' object has no attribute 'get'")
        ++ nl)).
Proof.
  intros Ht Hpost Hstatus Hbody Hnot.
  unfold call_invoke. unfold bind at 1.
  rewrite (thread_id_or_uuid_given thread_id s Ht).
  unfold bind at 1. unfold print at 1.
  run_request. rewrite Hpost, Hstatus. step. rewrite Hbody. step.
  destruct data; step; try now rewrite !str_app_assoc.
  exfalso. now apply (Hnot members).
Qed.

(** X14. With an empty thread id, [call_invoke] draws a fresh uuid and
    behaves as if called with it. *)
Theorem call_invoke_draws_thread_id (question u : string)
    (s : state World) (w : World) :
  uuid4 (world s) = (u, w) ->
  u <> "" ->
  call_invoke uuid4 requests_post py_repr question "" s
  = call_invoke uuid4 requests_post py_repr question u
      (mk_state w (stdout s)).
Proof.
  intros Hu Hne.
  assert (H1 : thread_id_or_uuid uuid4 "" s = (Ok u, mk_state w (stdout s))).
  { cbn [thread_id_or_uuid]. now rewrite Hu. }
  unfold call_invoke.
  rewrite (bind_ok _ _ _ _ _ H1).
  rewrite (bind_ok _ _ _ _ _ (thread_id_or_uuid_given u _ Hne)).
  reflexivity.
Qed.

End InvokeFacts.

Lemma call_invoke_prints_final_answer_witness :
  call_invoke demo_uuid4
    (backend (mk_response None (Ok (JObj [("status", JStr "done")])) [] None))
    demo_repr "what is the price of ethereum today?" "session-1"
    (mk_state 0 "")
  = (Ok tt,
     mk_state 1
       ("" ++ (nl ++ "--- Calling /invoke with question: "
               ++ "what is the price of ethereum today?")
        ++ nl
        ++ ("[/invoke response] final_answer: "
            ++ match lookup "final_answer" [("status", JStr "done")] with
               | Some v => py_str demo_repr v
               | None => "None"
               end)
        ++ nl)).
Proof.
  apply (call_invoke_prints_final_answer nat demo_uuid4
           (backend (mk_response None (Ok (JObj [("status", JStr "done")]))
                                 [] None))
           demo_repr "what is the price of ethereum today?" "session-1"
           (mk_state 0 "")
           (mk_response None (Ok (JObj [("status", JStr "done")])) [] None)
           1 [("status", JStr "done")]);
    [discriminate | reflexivity | reflexivity | reflexivity].
Defined.

Lemma call_invoke_reports_http_error_witness :
  call_invoke demo_uuid4
    (backend (mk_response (Some "500 Server Error")
                (Ok (JObj [("final_answer", JStr "42")])) [] None))
    demo_repr "what is the price of ethereum today?" "session-1"
    (mk_state 0 "")
  = (Ok tt,
     mk_state 1
       ("" ++ (nl ++ "--- Calling /invoke with question: "
               ++ "what is the price of ethereum today?")
        ++ nl ++ ("[/invoke] HTTP Error: " ++ "500 Server Error") ++ nl)).
Proof.
  apply (call_invoke_reports_http_error nat demo_uuid4
           (backend (mk_response (Some "500 Server Error")
                       (Ok (JObj [("final_answer", JStr "42")])) [] None))
           demo_repr "what is the price of ethereum today?" "session-1"
           (mk_state 0 "")
           (mk_response (Some "500 Server Error")
              (Ok (JObj [("final_answer", JStr "42")])) [] None)
           1 "500 Server Error");
    [discriminate | reflexivity | reflexivity].
Defined.

Lemma call_invoke_body_not_an_object_witness :
  call_invoke demo_uuid4
    (backend (mk_response None (Ok (JArr [JStr "42"])) [] None))
    demo_repr "what is the price of ethereum today?" "session-1"
    (mk_state 0 "")
  = (Ok tt,
     mk_state 1
       ("" ++ (nl ++ "--- Calling /invoke with question: "
               ++ "what is the price of ethereum today?")
        ++ nl
        ++ ("[/invoke] An error occurred: '" ++ type_name (JArr [JStr "42"])
            ++ "' object has no attribute 'get'")
        ++ nl)).
Proof.
  apply (call_invoke_body_not_an_object nat demo_uuid4
           (backend (mk_response None (Ok (JArr [JStr "42"])) [] None))
           demo_repr "what is the price of ethereum today?" "session-1"
           (mk_state 0 "")
           (mk_response None (Ok (JArr [JStr "42"])) [] None)
           1 (JArr [JStr "42"]));
    [discriminate | reflexivity | reflexivity | reflexivity
     | intros members; discriminate].
Defined.

Lemma call_invoke_draws_thread_id_witness :
  call_invoke demo_uuid4
    (backend (mk_response None (Ok (JObj [("final_answer", JStr "42")]))
                          [] None))
    demo_repr "what is the price of ethereum today?" "" (mk_state 0 "")
  = call_invoke demo_uuid4
      (backend (mk_response None (Ok (JObj [("final_answer", JStr "42")]))
                            [] None))
      demo_repr "what is the price of ethereum today?"
      "5e426240-c770-4997-889d-519ab6153b80" (mk_state 1 "").
Proof.
  apply (call_invoke_draws_thread_id nat demo_uuid4
           (backend (mk_response None
                       (Ok (JObj [("final_answer", JStr "42")])) [] None))
           demo_repr "what is the price of ethereum today?"
           "5e426240-c770-4997-889d-519ab6153b80" (mk_state 0 "") 1);
    [reflexivity | discriminate].
Defined.

Section BatchFacts.

Variable World : Type.
Variable uuid4 : World -> string * World.
Variable requests_post :
  string -> json -> bool -> World -> outcome response * World.
Variable py_repr : json -> string.

Lemma skipn_head (l : list string) : forall k q rest,
  skipn k l = q :: rest ->
  nth_error l k = Some q /\ skipn (S k) l = rest.
Proof.
  induction l as [|x l IH]; intros [|k] q rest H; try discriminate.
  - injection H as -> ->. now split.
  - cbn [skipn] in H. destruct (IH k q rest H) as [H1 H2]. now split.
Qed.

Lemma skipn_nil_nth (l : list string) : forall k,
  skipn k l = [] -> nth_error l k = None.
Proof.
  induction l as [|x l IH]; intros [|k] H; try reflexivity; try discriminate.
  cbn [skipn] in H. now apply IH.
Qed.

Lemma report_nil_r questions : report py_repr questions [] = "".
Proof. now destruct questions. Qed.

Lemma report_firstn questions : forall answers,
  report py_repr questions (firstn (length questions) answers)
  = report py_repr questions answers.
Proof.
  induction questions as [|q qs IH]; intros [|a r]; try reflexivity.
  cbn [length firstn report]. now rewrite IH.
Qed.

(** The loop of [call_batch], started at index [k]: it prints the answers
    that have a question and stops with [IndexError] at the first answer
    that has none. *)
Lemma print_answers_run questions items : forall k (s : state World),
  for_each (enumerate k items) (print_answer py_repr questions) s
  = (if (length items <=? length (skipn k questions))%nat
     then Ok tt
     else Err (mk_exc IndexError "list index out of range"),
     mk_state (world s)
       (stdout s ++ report py_repr (skipn k questions) items)).
Proof.
  induction items as [|ans items IH]; intros k s.
  - cbn [enumerate for_each length Nat.leb ret]. unfold ret.
    rewrite report_nil_r, str_app_empty_r. now destruct s.
  - cbn [enumerate for_each].
    destruct (skipn k questions) as [|q rest] eqn:E.
    + unfold bind at 1. unfold print_answer, bind at 1, index.
      rewrite (skipn_nil_nth questions k E). unfold raise.
      cbn [length Nat.leb report]. rewrite str_app_empty_r. now destruct s.
    + destruct (skipn_head questions k q rest E) as [Hq Hrest].
      unfold bind at 1. unfold print_answer.
      unfold bind at 1, index. rewrite Hq. unfold ret at 1.
      unfold bind at 1, print at 1. unfold bind at 1, print at 1.
      unfold print at 1. step.
      rewrite IH, Hrest. step. cbn [length Nat.leb report].
      unfold answer_lines. now rewrite !str_app_assoc.
Qed.

Lemma batch_handlers_total (body : M World unit) (s : state World) :
  exists s',
    try_except body
      (fun err => print ("[/batch] HTTP Error: " ++ exc_msg err))
      (fun e => print ("[/batch] An error occurred: " ++ exc_msg e)) s
    = (Ok tt, s').
Proof.
  unfold try_except, print.
  destruct (body s) as [[[]|e] s1].
  - now exists s1.
  - destruct (exc_class_of e); eexists; reflexivity.
Qed.

(** What [call_batch] prints once the backend has returned the list
    [answers]. *)
Lemma call_batch_answers_run (questions : list string) (thread_id : string)
    (s : state World) (resp : response) (w : World)
    (members : list (string * json)) (answers : list json) :
  thread_id <> "" ->
  requests_post (BASE_URL ++ "/batch")
    (JObj [("questions", JArr (map JStr questions));
           ("thread_id", JStr thread_id)])
    false (world s) = (Ok resp, w) ->
  status_error resp = None ->
  json_body resp = Ok (JObj members) ->
  match lookup "answers" members with Some v => v | None => JArr [] end
    = JArr answers ->
  call_batch uuid4 requests_post py_repr questions thread_id s
  = (Ok tt,
     mk_state w
       (stdout s
        ++ (nl ++ "--- Calling /batch with questions: "
            ++ py_repr (JArr (map JStr questions))) ++ nl
        ++ report py_repr questions answers
        ++ (if (length answers <=? length questions)%nat then ""
            else "[/batch] An error occurred: list index out of range"
                 ++ nl))).
Proof.
  intros Ht Hpost Hstatus Hbody Hanswers.
  unfold call_batch.
  rewrite (bind_ok _ _ _ _ _ _ (thread_id_or_uuid_given World uuid4 thread_id s Ht)).
  unfold bind at 1. unfold print at 1.
  unfold try_except.
  unfold bind at 1, post. step. rewrite Hpost.
  unfold bind at 1, raise_for_status. rewrite Hstatus. unfold ret at 1.
  unfold bind at 1, response_json. rewrite Hbody.
  unfold bind at 1, get. rewrite Hanswers. unfold ret at 1.
  unfold bind at 1, iter. unfold ret at 1.
  rewrite print_answers_run. cbn [skipn]. step.
  destruct (length answers <=? length questions)%nat; step.
  - now rewrite str_app_empty_r, !str_app_assoc.
  - unfold print. step. now rewrite !str_app_assoc.
Qed.

(** X15. [call_batch] never raises, whatever the backend does and whatever
    the shape of the body. *)
Theorem call_batch_never_raises (questions : list string)
    (thread_id : string) (s : state World) :
  exists s',
    call_batch uuid4 requests_post py_repr questions thread_id s
    = (Ok tt, s').
Proof.
  destruct (thread_id_or_uuid_total World uuid4 thread_id s)
    as (tid & w0 & Ht).
  unfold call_batch. rewrite (bind_ok _ _ _ _ _ _ Ht).
  unfold bind at 1. unfold print at 1.
  apply batch_handlers_total.
Qed.

(** X16. When the backend returns no more answers than there are questions
    (none at all if the key ["answers"] is missing), [call_batch] prints each
    answer under the question of the same position, in order, and nothing
    for the questions left without answer. *)
Theorem call_batch_pairs_by_position (questions : list string)
    (thread_id : string) (s : state World) (resp : response) (w : World)
    (members : list (string * json)) (answers : list json) :
  thread_id <> "" ->
  requests_post (BASE_URL ++ "/batch")
    (JObj [("questions", JArr (map JStr questions));
           ("thread_id", JStr thread_id)])
    false (world s) = (Ok resp, w) ->
  status_error resp = None ->
  json_body resp = Ok (JObj members) ->
  match lookup "answers" members with Some v => v | None => JArr [] end
    = JArr answers ->
  length answers <= length questions ->
  call_batch uuid4 requests_post py_repr questions thread_id s
  = (Ok tt,
     mk_state w
       (stdout s
        ++ (nl ++ "--- Calling /batch with questions: "
            ++ py_repr (JArr (map JStr questions))) ++ nl
        ++ report py_repr questions answers)).
Proof.
  intros Ht Hpost Hstatus Hbody Hanswers Hlen.
  rewrite (call_batch_answers_run questions thread_id s resp w members
             answers Ht Hpost Hstatus Hbody Hanswers).
  apply Nat.leb_le in Hlen. rewrite Hlen.
  now rewrite str_app_empty_r.
Qed.

(** X17. When the backend returns more answers than there are questions,
    [call_batch] prints the answers that have a question and then reports
    the [IndexError] raised by [questions[i]]; the surplus answers are not
    printed. *)
Theorem call_batch_surplus_answers (questions : list string)
    (thread_id : string) (s : state World) (resp : response) (w : World)
    (members : list (string * json)) (answers : list json) :
  thread_id <> "" ->
  requests_post (BASE_URL ++ "/batch")
    (JObj [("questions", JArr (map JStr questions));
           ("thread_id", JStr thread_id)])
    false (world s) = (Ok resp, w) ->
  status_error resp = None ->
  json_body resp = Ok (JObj members) ->
  lookup "answers" members = Some (JArr answers) ->
  length questions < length answers ->
  call_batch uuid4 requests_post py_repr questions thread_id s
  = (Ok tt,
     mk_state w
       (stdout s
        ++ (nl ++ "--- Calling /batch with questions: "
            ++ py_repr (JArr (map JStr questions))) ++ nl
        ++ report py_repr questions (firstn (length questions) answers)
        ++ "[/batch] An error occurred: list index out of range" ++ nl)).
Proof.
  intros Ht Hpost Hstatus Hbody Hanswers Hlen.
  assert (Hdef : match lookup "answers" members with
                 | Some v => v | None => JArr [] end = JArr answers)
    by now rewrite Hanswers.
  rewrite (call_batch_answers_run questions thread_id s resp w members
             answers Ht Hpost Hstatus Hbody Hdef).
  apply Nat.leb_gt in Hlen. rewrite Hlen.
  now rewrite report_firstn.
Qed.

(** X18. The default of [data.get("answers", [])] only covers a missing
    key: when ["answers"] is present but holds [null], a number or a
    boolean, [call_batch] prints the [TypeError] of iterating over it. *)
Theorem call_batch_answers_not_iterable (questions : list string)
    (thread_id : string) (s : state World) (resp : response) (w : World)
    (members : list (string * json)) (v : json) :
  thread_id <> "" ->
  requests_post (BASE_URL ++ "/batch")
    (JObj [("questions", JArr (map JStr questions));
           ("thread_id", JStr thread_id)])
    false (world s) = (Ok resp, w) ->
  status_error resp = None ->
  json_body resp = Ok (JObj members) ->
  lookup "answers" members = Some v ->
  (v = JNull \/ (exists b, v = JBool b) \/ (exists n, v = JInt n)
   \/ (exists t, v = JFloat t)) ->
  call_batch uuid4 requests_post py_repr questions thread_id s
  = (Ok tt,
     mk_state w
       (stdout s
        ++ (nl ++ "--- Calling /batch with questions: "
            ++ py_repr (JArr (map JStr questions))) ++ nl
        ++ ("[/batch] An error occurred: '" ++ type_name v
            ++ "' object is not iterable") ++ nl)).
Proof.
  intros Ht Hpost Hstatus Hbody Hanswers Hv.
  unfold call_batch.
  rewrite (bind_ok _ _ _ _ _ _ (thread_id_or_uuid_given World uuid4 thread_id s Ht)).
  unfold bind at 1. unfold print at 1.
  unfold try_except.
  unfold bind at 1, post. step. rewrite Hpost.
  unfold bind at 1, raise_for_status. rewrite Hstatus. unfold ret at 1.
  unfold bind at 1, response_json. rewrite Hbody.
  unfold bind at 1, get. rewrite Hanswers. unfold ret at 1.
  destruct Hv as [->|[[b ->]|[[n ->]|[t ->]]]];
    unfold bind, iter, raise, print; step;
    now rewrite !str_app_assoc.
Qed.

End BatchFacts.

Lemma call_batch_pairs_by_position_witness :
  call_batch demo_uuid4
    (backend (mk_response None
                (Ok (JObj [("answers", JArr [JStr "12"])])) [] None))
    demo_repr ["Q1 about Bank A"; "Q1 about Bank B"] "session-1"
    (mk_state 0 "")
  = (Ok tt,
     mk_state 1
       ("" ++ (nl ++ "--- Calling /batch with questions: "
               ++ demo_repr (JArr (map JStr ["Q1 about Bank A";
                                             "Q1 about Bank B"]))) ++ nl
        ++ report demo_repr ["Q1 about Bank A"; "Q1 about Bank B"]
             [JStr "12"])).
Proof.
  apply (call_batch_pairs_by_position nat demo_uuid4
           (backend (mk_response None
                       (Ok (JObj [("answers", JArr [JStr "12"])])) [] None))
           demo_repr ["Q1 about Bank A"; "Q1 about Bank B"] "session-1"
           (mk_state 0 "")
           (mk_response None (Ok (JObj [("answers", JArr [JStr "12"])]))
                        [] None)
           1 [("answers", JArr [JStr "12"])] [JStr "12"]);
    [discriminate | reflexivity | reflexivity | reflexivity | reflexivity
     | simpl; lia].
Defined.

Lemma call_batch_surplus_answers_witness :
  call_batch demo_uuid4
    (backend (mk_response None
                (Ok (JObj [("answers", JArr [JStr "12"; JStr "7"])]))
                [] None))
    demo_repr ["Q1 about Bank A"] "session-1" (mk_state 0 "")
  = (Ok tt,
     mk_state 1
       ("" ++ (nl ++ "--- Calling /batch with questions: "
               ++ demo_repr (JArr (map JStr ["Q1 about Bank A"]))) ++ nl
        ++ report demo_repr ["Q1 about Bank A"]
             (firstn (length ["Q1 about Bank A"]) [JStr "12"; JStr "7"])
        ++ "[/batch] An error occurred: list index out of range" ++ nl)).
Proof.
  apply (call_batch_surplus_answers nat demo_uuid4
           (backend (mk_response None
                       (Ok (JObj [("answers", JArr [JStr "12"; JStr "7"])]))
                       [] None))
           demo_repr ["Q1 about Bank A"] "session-1" (mk_state 0 "")
           (mk_response None
              (Ok (JObj [("answers", JArr [JStr "12"; JStr "7"])])) [] None)
           1 [("answers", JArr [JStr "12"; JStr "7"])] [JStr "12"; JStr "7"]);
    [discriminate | reflexivity | reflexivity | reflexivity | reflexivity
     | simpl; lia].
Defined.

Lemma call_batch_answers_not_iterable_witness :
  call_batch demo_uuid4
    (backend (mk_response None (Ok (JObj [("answers", JNull)])) [] None))
    demo_repr ["Q1 about Bank A"] "session-1" (mk_state 0 "")
  = (Ok tt,
     mk_state 1
       ("" ++ (nl ++ "--- Calling /batch with questions: "
               ++ demo_repr (JArr (map JStr ["Q1 about Bank A"]))) ++ nl
        ++ ("[/batch] An error occurred: '" ++ type_name JNull
            ++ "' object is not iterable") ++ nl)).
Proof.
  apply (call_batch_answers_not_iterable nat demo_uuid4
           (backend (mk_response None (Ok (JObj [("answers", JNull)]))
                                 [] None))
           demo_repr ["Q1 about Bank A"] "session-1" (mk_state 0 "")
           (mk_response None (Ok (JObj [("answers", JNull)])) [] None)
           1 [("answers", JNull)] JNull);
    [discriminate | reflexivity | reflexivity | reflexivity | reflexivity
     | left; reflexivity].
Defined.

Section StreamFacts.

Variable World : Type.
Variable requests_post :
  string -> json -> bool -> World -> outcome response * World.
Variable json_loads : string -> outcome json.
Variable py_repr : json -> string.

Lemma for_each_app {A : Type} (body : A -> M World unit) (l1 l2 : list A) :
  forall s : state World,
    for_each (l1 ++ l2) body s
    = match for_each l1 body s with
      | (Ok _, s1) => for_each l2 body s1
      | (Err e, s1) => (Err e, s1)
      end.
Proof.
  induction l1 as [|x l1 IH]; intros s; [reflexivity|].
  cbn [app for_each]. unfold bind.
  destruct (body x s) as [[[]|e] s1]; [apply IH | reflexivity].
Qed.

(** An event that is not a metadata event is handled without error and
    only writes to standard output. *)
Lemma handle_event_plain (ev : string * string) (s : state World) :
  fst ev <> "metadata" ->
  exists text,
    handle_event json_loads py_repr ev s
    = (Ok tt, mk_state (world s) (stdout s ++ text)).
Proof.
  destruct ev as [evt_type evt_data]. cbn [fst]. intros Hne.
  unfold handle_event.
  destruct (String.eqb_spec evt_type "metadata") as [->|_]; [congruence|].
  repeat match goal with
  | |- context [if ?b then _ else _] => destruct b
  end; unfold print, process_partial_text; eexists; reflexivity.
Qed.

Lemma plain_events_run (events : list (string * string)) :
  forall s : state World,
    Forall (fun ev => fst ev <> "metadata") events ->
    exists text,
      for_each events (handle_event json_loads py_repr) s
      = (Ok tt, mk_state (world s) (stdout s ++ text)).
Proof.
  induction events as [|ev events IH]; intros s Hall.
  - exists "". cbn [for_each]. unfold ret. rewrite str_app_empty_r.
    now destruct s.
  - inversion Hall as [|? ? Hev Hrest]; subst.
    destruct (handle_event_plain ev s Hev) as (t1 & E1).
    cbn [for_each]. rewrite (bind_ok _ _ _ _ _ _ E1).
    destruct (IH (mk_state (world s) (stdout s ++ t1)) Hrest) as (t2 & E2).
    exists (t1 ++ t2). rewrite E2. step. now rewrite str_app_assoc.
Qed.

Lemma data_events_run (events : list (string * string)) :
  forall s : state World,
    Forall (fun ev => fst ev = "data") events ->
    for_each events (handle_event json_loads py_repr) s
    = (Ok tt, mk_state (world s) (stdout s ++ str_join "" (map snd events))).
Proof.
  induction events as [|[t c] events IH]; intros s Hall.
  - cbn [for_each map str_join]. unfold ret. rewrite str_app_empty_r.
    now destruct s.
  - inversion Hall as [|? ? Hev Hrest]; subst. cbn [fst] in Hev. subst t.
    cbn [for_each]. unfold bind at 1.
    unfold handle_event. cbn [String.eqb Ascii.eqb Bool.eqb].
    unfold process_partial_text. rewrite (IH _ Hrest). step.
    cbn [map snd]. f_equal. f_equal. rewrite str_app_assoc. f_equal.
    destruct (map snd events); [now rewrite str_app_empty_r | reflexivity].
Qed.

Lemma events_after_end pre post_events final_text (s0 s1 : state World) :
  for_each pre (handle_event json_loads py_repr) s0 = (Ok tt, s1) ->
  for_each (pre ++ ("end", final_text) :: post_events)
    (handle_event json_loads py_repr) s0
  = for_each post_events (handle_event json_loads py_repr)
      (mk_state (world s1)
         (stdout s1 ++ (nl ++ "[Done Streaming] Final text: " ++ final_text)
          ++ nl)).
Proof.
  intros Hpre. rewrite for_each_app, Hpre. cbn [for_each].
  unfold bind at 1. unfold handle_event at 1.
  cbn [String.eqb Ascii.eqb Bool.eqb]. unfold print at 1.
  reflexivity.
Qed.

Lemma events_bad_metadata pre post_events data e (s0 s1 : state World) :
  for_each pre (handle_event json_loads py_repr) s0 = (Ok tt, s1) ->
  json_loads data = Err e ->
  for_each (pre ++ ("metadata", data) :: post_events)
    (handle_event json_loads py_repr) s0
  = (Err e, s1).
Proof.
  intros Hpre Hloads. rewrite for_each_app, Hpre. cbn [for_each].
  unfold bind at 1. unfold handle_event at 1.
  cbn [String.eqb Ascii.eqb Bool.eqb].
  unfold bind at 1. now rewrite Hloads.
Qed.

(** The part of [call_stream] up to the loop. *)
Lemma call_stream_opens (question thread_id : string) (s : state World)
    (resp : response) (w : World) :
  requests_post (BASE_URL ++ "/stream")
    (JObj [("user_input", JStr question); ("thread_id", JStr thread_id)])
    true (world s) = (Ok resp, w) ->
  status_error resp = None ->
  call_stream requests_post json_loads py_repr question thread_id s
  = (for_each (sse_events resp) (handle_event json_loads py_repr) ;;
     match sse_error resp with
     | Some e => raise e
     | None => ret tt
     end) (mk_state w (stdout s)).
Proof.
  intros Hpost Hstatus. unfold call_stream.
  unfold bind at 1, post. rewrite Hpost.
  unfold bind at 1, raise_for_status. rewrite Hstatus. unfold ret at 1.
  reflexivity.
Qed.

(** X19. [call_stream] does not catch the error status: the [HTTPError] of
    [raise_for_status] is raised to the caller, no event is handled and
    nothing is printed. *)
Theorem call_stream_raises_http_error (question thread_id : string)
    (s : state World) (w : World) (resp : response) (msg : string) :
  requests_post (BASE_URL ++ "/stream")
    (JObj [("user_input", JStr question); ("thread_id", JStr thread_id)])
    true (world s) = (Ok resp, w) ->
  status_error resp = Some msg ->
  call_stream requests_post json_loads py_repr question thread_id s
  = (Err (mk_exc HTTPError msg), mk_state w (stdout s)).
Proof.
  intros Hpost Hstatus. unfold call_stream.
  unfold bind at 1, post. rewrite Hpost.
  unfold bind at 1, raise_for_status. now rewrite Hstatus.
Qed.

(** X20. A stream of data events is printed as the concatenation of its
    chunks, in order, with nothing added between or after them. *)
Theorem call_stream_joins_chunks (question thread_id : string)
    (s : state World) (resp : response) (w : World) :
  requests_post (BASE_URL ++ "/stream")
    (JObj [("user_input", JStr question); ("thread_id", JStr thread_id)])
    true (world s) = (Ok resp, w) ->
  status_error resp = None ->
  Forall (fun ev => fst ev = "data") (sse_events resp) ->
  call_stream requests_post json_loads py_repr question thread_id s
  = (match sse_error resp with
     | Some e => Err e
     | None => Ok tt
     end,
     mk_state w (stdout s ++ str_join "" (map snd (sse_events resp)))).
Proof.
  intros Hpost Hstatus Hall.
  rewrite (call_stream_opens question thread_id s resp w Hpost Hstatus).
  rewrite (bind_ok _ _ _ _ _ _ (data_events_run (sse_events resp) _ Hall)).
  step. now destruct (sse_error resp).
Qed.

(** X21. The event named [end] does not end the loop: it prints its line
    and the events that follow it are handled as usual. *)
Theorem call_stream_goes_on_after_end (question thread_id : string)
    (s s1 : state World) (resp : response) (w : World)
    (pre post_events : list (string * string)) (final_text : string) :
  requests_post (BASE_URL ++ "/stream")
    (JObj [("user_input", JStr question); ("thread_id", JStr thread_id)])
    true (world s) = (Ok resp, w) ->
  status_error resp = None ->
  sse_events resp = (pre ++ ("end", final_text) :: post_events)%list ->
  for_each pre (handle_event json_loads py_repr) (mk_state w (stdout s))
    = (Ok tt, s1) ->
  call_stream requests_post json_loads py_repr question thread_id s
  = (for_each post_events (handle_event json_loads py_repr) ;;
     match sse_error resp with
     | Some e => raise e
     | None => ret tt
     end)
      (mk_state (world s1)
         (stdout s1 ++ (nl ++ "[Done Streaming] Final text: " ++ final_text)
          ++ nl)).
Proof.
  intros Hpost Hstatus Hevents Hpre.
  rewrite (call_stream_opens question thread_id s resp w Hpost Hstatus).
  rewrite Hevents. unfold bind.
  now rewrite (events_after_end pre post_events final_text _ s1 Hpre).
Qed.

(** X22. A metadata event whose data is not valid JSON aborts the stream:
    the parser's exception is raised to the caller, what was printed before
    stays, and the events that follow are not handled. *)
Theorem call_stream_bad_metadata_aborts (question thread_id : string)
    (s s1 : state World) (resp : response) (w : World)
    (pre post_events : list (string * string)) (data : string) (e : exc) :
  requests_post (BASE_URL ++ "/stream")
    (JObj [("user_input", JStr question); ("thread_id", JStr thread_id)])
    true (world s) = (Ok resp, w) ->
  status_error resp = None ->
  sse_events resp = (pre ++ ("metadata", data) :: post_events)%list ->
  for_each pre (handle_event json_loads py_repr) (mk_state w (stdout s))
    = (Ok tt, s1) ->
  json_loads data = Err e ->
  call_stream requests_post json_loads py_repr question thread_id s
  = (Err e, s1).
Proof.
  intros Hpost Hstatus Hevents Hpre Hloads.
  rewrite (call_stream_opens question thread_id s resp w Hpost Hstatus).
  rewrite Hevents. unfold bind.
  now rewrite (events_bad_metadata pre post_events data e _ s1 Hpre Hloads).
Qed.

(** X23. Only metadata events can make the loop fail: on a stream without
    them every event is handled, output is only appended, and the call ends
    as the transport does. *)
Theorem call_stream_without_metadata (question thread_id : string)
    (s : state World) (resp : response) (w : World) :
  requests_post (BASE_URL ++ "/stream")
    (JObj [("user_input", JStr question); ("thread_id", JStr thread_id)])
    true (world s) = (Ok resp, w) ->
  status_error resp = None ->
  Forall (fun ev => fst ev <> "metadata") (sse_events resp) ->
  exists text,
    call_stream requests_post json_loads py_repr question thread_id s
    = (match sse_error resp with
       | Some e => Err e
       | None => Ok tt
       end,
       mk_state w (stdout s ++ text)).
Proof.
  intros Hpost Hstatus Hall.
  rewrite (call_stream_opens question thread_id s resp w Hpost Hstatus).
  destruct (plain_events_run (sse_events resp) (mk_state w (stdout s)) Hall)
    as (text & E).
  exists text. rewrite (bind_ok _ _ _ _ _ _ E). step.
  now destruct (sse_error resp).
Qed.

End StreamFacts.

Lemma call_stream_raises_http_error_witness :
  call_stream
    (backend (mk_response (Some "404 Client Error") (Ok JNull)
                [("data", "Hello")] None))
    demo_loads demo_repr "hello" "" (mk_state 0 "")
  = (Err (mk_exc HTTPError "404 Client Error"), mk_state 1 "").
Proof.
  apply (call_stream_raises_http_error nat
           (backend (mk_response (Some "404 Client Error") (Ok JNull)
                       [("data", "Hello")] None))
           demo_loads demo_repr "hello" "" (mk_state 0 "") 1
           (mk_response (Some "404 Client Error") (Ok JNull)
              [("data", "Hello")] None)
           "404 Client Error");
    reflexivity.
Defined.

Lemma call_stream_joins_chunks_witness :
  call_stream
    (backend (mk_response None (Ok JNull)
                [("data", "The price "); ("data", "is "); ("data", "$3484.")]
                None))
    demo_loads demo_repr "hello" "" (mk_state 0 "")
  = (Ok tt,
     mk_state 1
       ("" ++ str_join ""
                (map snd [("data", "The price "); ("data", "is ");
                          ("data", "$3484.")]))).
Proof.
  apply (call_stream_joins_chunks nat
           (backend (mk_response None (Ok JNull)
                       [("data", "The price "); ("data", "is ");
                        ("data", "$3484.")] None))
           demo_loads demo_repr "hello" "" (mk_state 0 "")
           (mk_response None (Ok JNull)
              [("data", "The price "); ("data", "is "); ("data", "$3484.")]
              None)
           1);
    [reflexivity | reflexivity | repeat constructor].
Defined.

Lemma call_stream_goes_on_after_end_witness :
  call_stream
    (backend (mk_response None (Ok JNull)
                [("data", "Hi"); ("end", "Hi"); ("data", "!")] None))
    demo_loads demo_repr "hello" "" (mk_state 0 "")
  = bind (for_each [("data", "!")] (handle_event demo_loads demo_repr))
         (fun _ => ret tt)
      (mk_state 1
         ("Hi" ++ (nl ++ "[Done Streaming] Final text: " ++ "Hi") ++ nl)).
Proof.
  apply (call_stream_goes_on_after_end nat
           (backend (mk_response None (Ok JNull)
                       [("data", "Hi"); ("end", "Hi"); ("data", "!")] None))
           demo_loads demo_repr "hello" "" (mk_state 0 "") (mk_state 1 "Hi")
           (mk_response None (Ok JNull)
              [("data", "Hi"); ("end", "Hi"); ("data", "!")] None)
           1 [("data", "Hi")] [("data", "!")] "Hi");
    reflexivity.
Defined.

Lemma call_stream_bad_metadata_aborts_witness :
  call_stream
    (backend (mk_response None (Ok JNull)
                [("data", "Hi"); ("metadata", "run_id=7"); ("data", "!")]
                None))
    demo_loads demo_repr "hello" "" (mk_state 0 "")
  = (Err (mk_exc OtherException "Expecting value: line 1 column 1 (char 0)"),
     mk_state 1 "Hi").
Proof.
  apply (call_stream_bad_metadata_aborts nat
           (backend (mk_response None (Ok JNull)
                       [("data", "Hi"); ("metadata", "run_id=7");
                        ("data", "!")] None))
           demo_loads demo_repr "hello" "" (mk_state 0 "") (mk_state 1 "Hi")
           (mk_response None (Ok JNull)
              [("data", "Hi"); ("metadata", "run_id=7"); ("data", "!")] None)
           1 [("data", "Hi")] [("data", "!")] "run_id=7");
    reflexivity.
Defined.

Lemma call_stream_without_metadata_witness :
  exists text,
    call_stream
      (backend (mk_response None (Ok JNull)
                  [("on_tool_start", "docsearch"); ("ping", "1");
                   ("end", "done")] None))
      demo_loads demo_repr "hello" "" (mk_state 0 "")
    = (Ok tt, mk_state 1 ("" ++ text)).
Proof.
  apply (call_stream_without_metadata nat
           (backend (mk_response None (Ok JNull)
                       [("on_tool_start", "docsearch"); ("ping", "1");
                        ("end", "done")] None))
           demo_loads demo_repr "hello" "" (mk_state 0 "")
           (mk_response None (Ok JNull)
              [("on_tool_start", "docsearch"); ("ping", "1");
               ("end", "done")] None)
           1);
    [reflexivity | reflexivity | repeat constructor; discriminate].
Defined.

End ClientFacts.
